(** * s3dx-viewer: the S3DX decoder, the Bezier evaluator and the mesh generator

    A shallow embedding of [src/utils/bezierEvaluator.ts],
    [src/utils/boardcadMeshGenerator.ts] and [src/utils/s3dxParser.ts],
    followed by the properties of the specification that concern them.

    Conventions of the embedding.
    - A TypeScript [number] that carries a coordinate, a colour or any
      measured quantity is a binary64 float ([float], Rocq's primitive
      IEEE 754 doubles), so rounding, NaN and signed zeros are those of
      the JavaScript engine.
    - A [number] that is only ever a loop counter, an array length or an
      array index is an integer of [Z]; it is converted with
      [number_of_Z] where the source divides it ([j / (segmentPoints - 1)]).
      The conversion is exact below 2^53.
    - An array is a list; an array created by [new Array(n)] is a list of
      optional slots, a hole being [None].
    - [throw] and the [TypeError] of a property read on [undefined] are
      the [Throw] outcome of the monad [Completion]; a [while (true)] loop
      runs on fuel and running out of it is the outcome [Diverge]. *)

From Stdlib Require Import Floats ZArith Lia DecimalString DecimalNat.
From Stdlib Require Uint63.
From stdpp Require Import base list strings.

Set Warnings "-inexact-float".
Set Default Proof Using "Type".

(** ** JavaScript numbers, arrays and loops *)

Module JS.

(** The number that an integer counter denotes when it meets a float
    operator. *)
Definition number_of_Z (z : Z) : float :=
  if (z <? 0)%Z then (- of_uint63 (Uint63.of_Z (- z)))%float
  else of_uint63 (Uint63.of_Z z).

(** [a !== b] and [a >= b], [a > b] on numbers. *)
Definition strict_ne (a b : float) : bool := negb (a =? b)%float.
Definition geb (a b : float) : bool := (b <=? a)%float.
Definition gtb (a b : float) : bool := (b <? a)%float.

(** A number is falsy when it is NaN, [0] or [-0]: the test of [a || b]. *)
Definition falsy (a : float) : bool := is_nan a || PrimFloat.is_zero a.
Definition or_else (a b : float) : float := if falsy a then b else a.


Definition is_neg_zero (a : float) : bool :=
  match classify a with NZero => true | _ => false end.

(** [Math.min(a, b)] and [Math.max(a, b)]: NaN is contagious and [-0] is
    below [+0]. *)
Definition min2 (a b : float) : float :=
  if is_nan a || is_nan b then nan
  else if (a <? b)%float then a
  else if (b <? a)%float then b
  else if is_neg_zero a then a else b.

Definition max2 (a b : float) : float :=
  if is_nan a || is_nan b then nan
  else if (a <? b)%float then b
  else if (b <? a)%float then a
  else if is_neg_zero a then b else a.

(** [Math.min(...xs)] and [Math.max(...xs)]; on no argument they are
    [Infinity] and [-Infinity]. *)
Definition Math_min (xs : list float) : float := foldl min2 infinity xs.
Definition Math_max (xs : list float) : float := foldl max2 neg_infinity xs.

(** [Math.PI]. *)
Definition Math_PI : float := 0x1.921fb54442d18p+1%float.

(** [Math.floor] of a float, read back as an integer where it is one. *)
Inductive Floored := FlNaN | FlNegInf | FlPosInf | FlInt (k : Z).

Definition Math_floor (a : float) : Floored :=
  match Prim2SF a with
  | S754_nan => FlNaN
  | S754_infinity s => if s then FlNegInf else FlPosInf
  | S754_zero _ => FlInt 0
  | S754_finite s m e =>
      let mag := Z.pos m in
      FlInt (Z.shiftl (if s then - mag else mag) e)
  end.

(** Arrays. [new Array(n)] has [n] holes. *)
Abbreviation Array A := (list (option A)).

Definition new_Array {A} (n : nat) : Array A := replicate n None.

(** [a[i] = v] for an integer [i]: inside the array the slot is
    overwritten, beyond its end the array grows (the gap is holes); a
    negative key names an ordinary property and changes no element. *)
Definition array_set {A} (a : Array A) (i : Z) (v : A) : Array A :=
  if (i <? 0)%Z then a
  else if (i <? Z.of_nat (length a))%Z then <[Z.to_nat i := Some v]> a
  else a ++ replicate (Z.to_nat i - length a) None ++ [Some v].

(** The outcome of one round of a loop body, and [for] loops over a list
    and over an integer range [lo <= j < hi]. *)
Inductive Step (S : Type) : Type :=
  | Continue (s : S)
  | Break (s : S).
Arguments Continue {S} s.
Arguments Break {S} s.

Fixpoint for_each {A S : Type} (body : A → S → Step S) (xs : list A) (s : S) : S :=
  match xs with
  | [] => s
  | x :: rest =>
      match body x s with
      | Continue s' => for_each body rest s'
      | Break s' => s'
      end
  end.

Definition for_range {S : Type} (lo hi : Z) (body : Z → S → Step S) (s : S) : S :=
  for_each body (seqZ lo (hi - lo)) s.

(** [a[i]] for an integer [i]: [undefined] outside the array. *)
Definition array_get {A} (a : list A) (i : Z) : option A :=
  if (i <? 0)%Z then None else a !! Z.to_nat i.

(** How a call completes: with a value, with a thrown error, or not at
    all (a loop that was still running when its fuel ran out). *)
Inductive JsError :=
  | Error (message : string)
  | TypeError.

Inductive Completion (A : Type) : Type :=
  | Normal (a : A)
  | Throw (e : JsError)
  | Diverge.
Arguments Normal {A} a.
Arguments Throw {A} e.
Arguments Diverge {A}.

Definition bind {A B} (c : Completion A) (k : A → Completion B) : Completion B :=
  match c with
  | Normal a => k a
  | Throw e => Throw e
  | Diverge => Diverge
  end.

(** A property read on a value that may be [undefined]. *)
Definition defined {A} (v : option A) : Completion A :=
  match v with
  | Some a => Normal a
  | None => Throw TypeError
  end.

(** A [for] loop whose body may throw. *)
Fixpoint for_each_c {A S : Type} (body : A → S → Completion S) (xs : list A) (s : S)
    : Completion S :=
  match xs with
  | [] => Normal s
  | x :: rest => bind (body x s) (for_each_c body rest)
  end.

Definition for_range_c {S : Type} (lo hi : Z) (body : Z → S → Completion S) (s : S)
    : Completion S :=
  for_each_c body (seqZ lo (hi - lo)) s.

End JS.

(** [x ← c; k] runs [c] and then [k] on its value; a throw or a
    divergence of [c] is the outcome of the whole. *)
#[export] Instance Completion_bind : MBind JS.Completion := λ A B k c, JS.bind c k.
#[export] Instance Completion_ret : MRet JS.Completion := λ A a, JS.Normal a.

(** ** The geometric model ([src/types/s3dx.ts]) *)

Record Point3D := mkPoint3D {
  pt_x : float;
  pt_y : float;
  pt_z : float;
  pt_u : float;
  pt_color : float
}.

Record Polygon3D := mkPolygon3D {
  poly_nb_of_points : float;
  poly_open : float;
  poly_symmetry : float;
  poly_symmetry_center : Point3D;
  poly_plan : float;
  poly_points : list Point3D
}.

Record Bezier3D := mkBezier3D {
  bez_name : string;
  bez_degree : float;
  bez_open : float;
  bez_symmetry : float;
  bez_plan : float;
  control_points : Polygon3D;
  tangents_1 : Polygon3D;
  tangents_2 : Polygon3D;
  tangents_m : Polygon3D;
  control_type_points : list float;
  tangent_type_points : list float
}.

Record Couple := mkCouple {
  dessus : float;
  dessous : float;
  displayed : float;
  couple_bezier : Bezier3D
}.

Record Board := mkBoard {
  board_version : float;
  version_number : string;
  board_name : string;
  author : string;
  comment : string;
  variation : string;
  category : string;
  category_type : string;
  construction : string;
  rider_name : string;
  rider_weight : float;
  board_length : float;
  length_dev : float;
  board_width : float;
  board_thickness : float;
  tail_rocker : float;
  nose_rocker : float;
  volume : float;
  surface_proj : float;
  volume_tail : float;
  volume_nose : float;
  surface_proj_tail : float;
  surface_proj_nose : float;
  otl : Bezier3D;
  str_bot : Bezier3D;
  str_deck : Bezier3D;
  number_of_slices : float;
  couples : list Couple;
  board_color : float;
  color_bot : float;
  color_rail : float
}.

Record Lighting := mkLighting {
  light_version : float;
  ecl : Point3D;
  light_color : float;
  color_spot : float;
  intensity : float;
  intensity2 : float;
  intensity_ambient : float;
  intensity_spec : float
}.

Record View := mkView {
  view_version : float;
  wh : float;
  ww : float;
  wox : float;
  woy : float;
  uh : float;
  uw : float;
  uxmin : float;
  uymin : float;
  cxy : float;
  mrgx : float;
  mrgy : float;
  police : string;
  over_sample : float;
  grid : float
}.

Record Camera := mkCamera {
  cam_version : float;
  alpha : float;
  dim_obj : float;
  crot : Point3D;
  cvis : Point3D;
  ccam : Point3D;
  oy : Point3D;
  ur : Point3D;
  cam_view : View
}.

Record Scene := mkScene {
  scene_version : float;
  background_color : float;
  lighting : Lighting;
  camera : Camera;
  reflexion_map : string;
  display_sky_box : float
}.

Record Shape3DDesign := mkShape3DDesign {
  board : Board;
  scene : Scene
}.

(** The value an array read yields where the proofs show the index in
    range; it is never observed. *)
#[export] Instance Point3D_inhabited : Inhabited Point3D :=
  populate (mkPoint3D 0 0 0 0 0).

(** ** The curve evaluator ([src/utils/bezierEvaluator.ts]) *)

Module BezierEvaluator.
Import JS.

Definition evaluateCubicBezier (p0 p1 p2 p3 : Point3D) (t : float) : Point3D :=
  let invT := (1.0 - t)%float in
  let t2 := (t * t)%float in
  let t3 := (t2 * t)%float in
  let invT2 := (invT * invT)%float in
  let invT3 := (invT2 * invT)%float in
  {| pt_x := (invT3 * pt_x p0 + 3 * invT2 * t * pt_x p1 + 3 * invT * t2 * pt_x p2 + t3 * pt_x p3)%float;
     pt_y := (invT3 * pt_y p0 + 3 * invT2 * t * pt_y p1 + 3 * invT * t2 * pt_y p2 + t3 * pt_y p3)%float;
     pt_z := (invT3 * pt_z p0 + 3 * invT2 * t * pt_z p1 + 3 * invT * t2 * pt_z p2 + t3 * pt_z p3)%float;
     pt_u := (invT3 * pt_u p0 + 3 * invT2 * t * pt_u p1 + 3 * invT * t2 * pt_u p2 + t3 * pt_u p3)%float;
     pt_color := pt_color p0 |}.

Definition evaluateQuadraticBezier (p0 p1 p2 : Point3D) (t : float) : Point3D :=
  let invT := (1.0 - t)%float in
  let invT2 := (invT * invT)%float in
  let t2 := (t * t)%float in
  let twoInvTt := (2.0 * invT * t)%float in
  {| pt_x := (invT2 * pt_x p0 + twoInvTt * pt_x p1 + t2 * pt_x p2)%float;
     pt_y := (invT2 * pt_y p0 + twoInvTt * pt_y p1 + t2 * pt_y p2)%float;
     pt_z := (invT2 * pt_z p0 + twoInvTt * pt_z p1 + t2 * pt_z p2)%float;
     pt_u := (invT2 * pt_u p0 + twoInvTt * pt_u p1 + t2 * pt_u p2)%float;
     pt_color := pt_color p0 |}.

Definition evaluateLinear (p0 p1 : Point3D) (t : float) : Point3D :=
  {| pt_x := (pt_x p0 + t * (pt_x p1 - pt_x p0))%float;
     pt_y := (pt_y p0 + t * (pt_y p1 - pt_y p0))%float;
     pt_z := (pt_z p0 + t * (pt_z p1 - pt_z p0))%float;
     pt_u := (pt_u p0 + t * (pt_u p1 - pt_u p0))%float;
     pt_color := pt_color p0 |}.

(** The parameter of sample [j] among the [segmentPoints] of a segment:
    [segmentPoints > 1 ? j / (segmentPoints - 1) : 0.0]. *)
Definition localT (segmentPoints j : Z) : float :=
  if (1 <? segmentPoints)%Z
  then (number_of_Z j / number_of_Z (segmentPoints - 1))%float
  else 0.0%float.

(** The two nested loops shared by the cubic case and the polyline case:
    [ev seg t] is the point of segment [seg] at parameter [t]. The state is
    the array [points] and the write position [pointIdx]. *)
Definition sampleSegments (ev : Z → float → Point3D)
    (numPoints numSegments pointsPerSegment : Z)
    (st : Array Point3D * Z) : Array Point3D * Z :=
  for_range 0 numSegments (λ seg '(points, pointIdx),
    let segmentPoints :=
      if (seg =? numSegments - 1)%Z then (numPoints - pointIdx)%Z
      else pointsPerSegment in
    Continue
      (for_range 0 segmentPoints (λ j '(points, pointIdx),
         if (numPoints <=? pointIdx)%Z then Break (points, pointIdx)
         else Continue (array_set points pointIdx (ev seg (localT segmentPoints j)),
                        (pointIdx + 1)%Z))
         (points, pointIdx))) st.

(** The single loop of the quadratic and the linear case:
    [t = i / (numPoints - 1)], with no guard on [numPoints = 1]. *)
Definition sampleWhole (ev : float → Point3D) (numPoints : Z)
    (points : Array Point3D) : Array Point3D :=
  for_range 0 numPoints (λ i points,
    let t := (number_of_Z i / number_of_Z (numPoints - 1))%float in
    Continue (array_set points i (ev t))) points.

(** [numPoints] is the length of an array: every caller passes a
    non-negative integer literal (or takes the default [50]), and
    [new Array] admits nothing else. The reads [cp[seg]], [t2[seg]], ...
    are total lookups; [cubic_reads_in_range] below shows those of the
    cubic case inside their arrays, and the other cases read [cp] below
    its length. *)
Definition generateBezierPoints (bezier : Bezier3D) (numPoints : nat) : Array Point3D :=
  if (length (poly_points (control_points bezier)) <? 2)%nat then []
  else
    let cp := poly_points (control_points bezier) in
    let t1 := if (0 <? length (poly_points (tangents_1 bezier)))%nat
              then poly_points (tangents_1 bezier) else [] in
    let t2 := if (0 <? length (poly_points (tangents_2 bezier)))%nat
              then poly_points (tangents_2 bezier) else [] in
    let points : Array Point3D := new_Array numPoints in
    let n := Z.of_nat numPoints in
    if (2 <=? length cp)%nat && (length cp <=? length t1)%nat && (length cp <=? length t2)%nat
    then
      let numControlSegments := (Z.of_nat (length cp) - 1)%Z in
      let pointsPerSegment := (n / numControlSegments)%Z in
      fst (sampleSegments
             (λ seg t,
                let p0 := cp !!! Z.to_nat seg in
                let p3 := cp !!! Z.to_nat (seg + 1) in
                let p1 := t2 !!! Z.to_nat seg in
                let p2 := t1 !!! Z.to_nat (seg + 1) in
                evaluateCubicBezier p0 p1 p2 p3 t)
             n numControlSegments pointsPerSegment (points, 0%Z))
    else if (length cp =? 3)%nat then
      sampleWhole (evaluateQuadraticBezier (cp !!! 0%nat) (cp !!! 1%nat) (cp !!! 2%nat)) n points
    else if (length cp =? 2)%nat then
      sampleWhole (evaluateLinear (cp !!! 0%nat) (cp !!! 1%nat)) n points
    else if (3 <? length cp)%nat then
      let totalSegments := (Z.of_nat (length cp) - 1)%Z in
      let pointsPerSegment := (n / totalSegments)%Z in
      fst (sampleSegments
             (λ seg t,
                let p0 := cp !!! Z.to_nat seg in
                let p1 := cp !!! Z.to_nat (seg + 1) in
                evaluateLinear p0 p1 t)
             n totalSegments pointsPerSegment (points, 0%Z))
    else [].

(** [halfPoints.some(pt => pt.y < -0.001)] *)
Definition hasNegative (halfPoints : list Point3D) : bool :=
  existsb (λ pt, (pt_y pt <? -0.001)%float) halfPoints.

Definition mirrorCrossSectionPoints (halfPoints : list Point3D) : list Point3D :=
  if (length halfPoints =? 0)%nat then []
  else if hasNegative halfPoints then halfPoints
  else
    let startIdx :=
      if (abs (pt_y (halfPoints !!! 0%nat)) <? 0.001)%float then 1%Z else 0%Z in
    let numToMirror := (Z.of_nat (length halfPoints) - startIdx)%Z in
    for_range 0 numToMirror (λ i result,
      let srcIdx := (Z.of_nat (length halfPoints) - 1 - i)%Z in
      let src := halfPoints !!! Z.to_nat srcIdx in
      let mirroredPoint :=
        {| pt_x := pt_x src; pt_y := (- pt_y src)%float; pt_z := pt_z src;
           pt_u := pt_u src; pt_color := pt_color src |} in
      Continue (result ++ [mirroredPoint])) halfPoints.

(** The state of the search loop of [interpolateZAtX] is the value it
    returned from inside the loop, if any. *)
Definition interpolateZAtX (points : list Point3D) (x : float) : float :=
  if (length points =? 0)%nat then 0.0%float
  else
    let found :=
      for_range 0 (Z.of_nat (length points) - 1) (λ i (r : option float),
        let pi := points !!! Z.to_nat i in
        let pj := points !!! Z.to_nat (i + 1) in
        if geb x (pt_x pi) && (x <=? pt_x pj)%float then
          let t := ((x - pt_x pi) / (pt_x pj - pt_x pi))%float in
          Break (Some (pt_z pi * (1.0 - t) + pt_z pj * t)%float)
        else Continue r) None in
    match found with
    | Some r => r
    | None =>
        if (x <? pt_x (points !!! 0%nat))%float then pt_z (points !!! 0%nat)
        else pt_z (points !!! (length points - 1)%nat)
    end.

(** The elements of the array that [generateBezierPoints] returns, for
    the callers that read [p.x] of every element. The array never has a
    hole ([generateBezierPoints_dense] below), so no element is lost
    here and no such read meets [undefined]. *)
Definition sampledPoints (bezier : Bezier3D) (numPoints : nat) : list Point3D :=
  omap id (generateBezierPoints bezier numPoints).

End BezierEvaluator.

(** ** The mesh generator ([src/utils/boardcadMeshGenerator.ts]) *)

(** What the generator hands to the rendering library: the arguments of
    the [THREE] constructors it calls. The float32 conversion of the
    buffers and [computeVertexNormals], which overwrites the placeholder
    normals, belong to the library and are not part of the model. *)
Inductive Side := FrontSide | BackSide | DoubleSide.

Record MeshPhongMaterial := mkMeshPhongMaterial {
  mat_color : Z;
  mat_shininess : option float;
  mat_side : option Side
}.

Inductive Geometry :=
  | BufferGeometry (position normal uv : list float) (index : list Z)
  | BoxGeometry (width height depth : float).

Record Mesh := mkMesh {
  geometry : Geometry;
  material : MeshPhongMaterial
}.

Module BoardCADMeshGenerator.
Import JS BezierEvaluator.

(** The three buffers the row loop appends to. *)
Record Buffers := mkBuffers {
  vertices : list float;
  normals : list float;
  uvs : list float
}.

Definition getWidthAtX (board : Board) (x : float) : float :=
  let halfOutline := sampledPoints (otl board) 200 in
  if (length halfOutline =? 0)%nat then 20%float
  else
    let '(maxY, found) :=
      for_each (λ pt '(maxY, found),
        if (abs (pt_x pt - x) <? 2.0)%float
        then Continue (max2 maxY (abs (pt_y pt)), true)
        else Continue (maxY, found)) halfOutline (0%float, false) in
    let '(maxY, found) :=
      if negb found then
        for_range 0 (Z.of_nat (length halfOutline) - 1) (λ i '(maxY, found),
          let p1 := halfOutline !!! Z.to_nat i in
          let p2 := halfOutline !!! Z.to_nat (i + 1) in
          if geb x (pt_x p1) && (x <=? pt_x p2)%float then
            let t := ((x - pt_x p1) / (pt_x p2 - pt_x p1))%float in
            Break ((abs (pt_y p1) * (1 - t) + abs (pt_y p2) * t)%float, true)
          else Continue (maxY, found)) (maxY, found)
      else (maxY, found) in
    if negb found then 0.0%float
    else (maxY * 2.0)%float.

Definition getBottomAtX (board : Board) (x : float) : float :=
  interpolateZAtX (sampledPoints (str_bot board) 200) x.

Definition getDeckAtX (board : Board) (x : float) : float :=
  if (0 <? length (poly_points (control_points (str_deck board))))%nat
  then interpolateZAtX (sampledPoints (str_deck board) 200) x
  else (getBottomAtX board x + board_thickness board)%float.

Definition getThicknessAtX (board : Board) (x : float) : float :=
  (getDeckAtX board x - getBottomAtX board x)%float.

(** [couple.bezier] is always an object, so the guard [!couple.bezier]
    never fires and has no counterpart here. *)
Definition generateScaledCrossSection (couple : Couple)
    (targetWidth targetThickness : float) : list Point3D :=
  let halfPoints := sampledPoints (couple_bezier couple) 50 in
  let basePoints := mirrorCrossSectionPoints halfPoints in
  if (length basePoints =? 0)%nat then []
  else
    let minY := Math_min (map pt_y basePoints) in
    let maxY := Math_max (map pt_y basePoints) in
    let minZ := Math_min (map pt_z basePoints) in
    let maxZ := Math_max (map pt_z basePoints) in
    let currentWidth := (maxY - minY)%float in
    let currentThickness := (maxZ - minZ)%float in
    let widthScale :=
      if gtb currentWidth 0 then (targetWidth / currentWidth)%float else 1%float in
    let thicknessScale :=
      if gtb currentThickness 0 then (targetThickness / currentThickness)%float
      else 1%float in
    let centerY := ((minY + maxY) * 0.5)%float in
    let centerZ := ((minZ + maxZ) * 0.5)%float in
    map (λ pt,
      {| pt_x := pt_x pt;
         pt_y := ((pt_y pt - centerY) * widthScale)%float;
         pt_z := ((pt_z pt - centerZ) * thicknessScale - targetThickness * 0.5)%float;
         pt_u := pt_u pt;
         pt_color := pt_color pt |}) basePoints.

(** [cs.bezier?.control_points?.points?.[0]?.x]: the position of a
    cross-section along the board, [undefined] without a control point. *)
Definition stationOf (cs : Couple) : option float :=
  pt_x <$> head (poly_points (control_points (couple_bezier cs))).

Definition getInterpolatedCrossSection (board : Board) (x : float)
    : Completion (list Point3D) :=
  if (length (couples board) =? 0)%nat then Normal []
  else
    let '(prevIdx, nextIdx) :=
      for_range 0 (Z.of_nat (length (couples board))) (λ i '(prevIdx, nextIdx),
        match stationOf <$> array_get (couples board) i with
        | Some (Some csX) =>
            let prevIdx := if (csX <=? x)%float then i else prevIdx in
            if geb csX x && (nextIdx =? 0)%Z then Break (prevIdx, i)
            else Continue (prevIdx, nextIdx)
        | _ => Continue (prevIdx, nextIdx)
        end) (0%Z, 0%Z) in
    let nextIdx :=
      if (nextIdx =? 0)%Z then (Z.of_nat (length (couples board)) - 1)%Z else nextIdx in
    cs1 ← defined (array_get (couples board) prevIdx);
    cs2 ← defined (array_get (couples board) nextIdx);
    let x1 := match stationOf cs1 with Some v => or_else v 0 | None => 0%float end in
    let x2 := match stationOf cs2 with
              | Some v => or_else v (board_length board)
              | None => board_length board
              end in
    let t := if strict_ne x2 x1 then ((x - x1) / (x2 - x1))%float else 0%float in
    let targetWidth := getWidthAtX board x in
    let targetThickness := getThicknessAtX board x in
    let cs1Points := generateScaledCrossSection cs1 targetWidth targetThickness in
    let cs2Points := generateScaledCrossSection cs2 targetWidth targetThickness in
    let numPoints := Z.max (Z.of_nat (length cs1Points)) (Z.of_nat (length cs2Points)) in
    for_range_c 0 numPoints (λ i result,
      let idx1 := Z.min i (Z.of_nat (length cs1Points) - 1) in
      let idx2 := Z.min i (Z.of_nat (length cs2Points) - 1) in
      p1 ← defined (array_get cs1Points idx1);
      p2 ← defined (array_get cs2Points idx2);
      Normal (result ++
        [{| pt_x := x;
            pt_y := (pt_y p1 * (1.0 - t) + pt_y p2 * t)%float;
            pt_z := (pt_z p1 * (1.0 - t) + pt_z p2 * t)%float;
            pt_u := 0;
            pt_color := 0 |}])) [].

(** The element the function returns is [undefined] when the computed
    index is NaN. *)
Definition getPointOnCrossSection (crossSection : list Point3D) (angle x : float)
    : option Point3D :=
  if (length crossSection =? 0)%nat
  then Some {| pt_x := x; pt_y := 0; pt_z := 0; pt_u := 0; pt_color := 0 |}
  else
    let s := (angle / (2.0 * Math_PI))%float in
    let last := (Z.of_nat (length crossSection) - 1)%Z in
    match Math_floor (s * number_of_Z last)%float with
    | FlNaN => None
    | FlNegInf => array_get crossSection 0
    | FlPosInf => array_get crossSection (Z.max 0 last)
    | FlInt idx => array_get crossSection (Z.max 0 (Z.min idx last))
    end.

Definition uSteps : Z := 40.
Definition vSteps : Z := 32.

(** [vertices.push(point.x * 0.01, point.z * 0.01, point.y * 0.01)] with
    its placeholder normal and its texture coordinates. *)
Definition pushVertex (px py pz u v : float) (b : Buffers) : Buffers :=
  {| vertices := vertices b ++ [(px * 0.01)%float; (pz * 0.01)%float; (py * 0.01)%float];
     normals := normals b ++ [0%float; 0%float; 1%float];
     uvs := uvs b ++ [u; v] |}.

(** The branch of a row whose width is at most [0.1]: every vertex of
    the row sits on the centre line. *)
Definition collapsedRow (board : Board) (x u : float) (b : Buffers) : Buffers :=
  let rockerAtX := getBottomAtX board x in
  let thicknessAtX := getThicknessAtX board x in
  for_range 0 (vSteps + 1) (λ j b,
    let v := (number_of_Z j / number_of_Z vSteps)%float in
    Continue (pushVertex x 0 (rockerAtX + thicknessAtX * 0.5)%float u v b)) b.

(** The other branch: the vertices follow the interpolated
    cross-section. *)
Definition profiledRow (board : Board) (x u : float) (b : Buffers) : Completion Buffers :=
  crossSection ← getInterpolatedCrossSection board x;
  for_range_c 0 (vSteps + 1) (λ j b,
    let v := (number_of_Z j / number_of_Z vSteps)%float in
    let angle := (v * 2.0 * Math_PI)%float in
    csPoint ← defined (getPointOnCrossSection crossSection angle x);
    let rockerAtX := getBottomAtX board x in
    let thicknessAtX := getThicknessAtX board x in
    Normal (pushVertex x (pt_y csPoint)
              (pt_z csPoint + rockerAtX + thicknessAtX * 0.5)%float u v b)) b.

(** The parameter [u] of row [i] and the position [x] it is mapped to. *)
Definition rowParameter (i : Z) : float :=
  (number_of_Z i / number_of_Z uSteps)%float.

Definition rowStation (minX actualLength : float) (i : Z) : float :=
  let u := rowParameter i in
  let uAdjusted :=
    if (u <? 0.5)%float then
      let t := (u * 2.0)%float in
      (0.5 * (t * t * (3.0 - 2.0 * t)))%float
    else
      let t := ((u - 0.5) * 2.0)%float in
      let smoothed := (t * t * (3.0 - 2.0 * t))%float in
      (0.5 + 0.5 * smoothed)%float in
  (minX + uAdjusted * actualLength)%float.

(** One round of the loop over the length of the board. *)
Definition generateRow (board : Board) (minX actualLength : float) (i : Z) (b : Buffers)
    : Completion Buffers :=
  let u := rowParameter i in
  let x := rowStation minX actualLength i in
  let widthAtX := getWidthAtX board x in
  if (widthAtX <=? 0.1)%float then Normal (collapsedRow board x u b)
  else profiledRow board x u b.

Definition generateTriangles (indices : list Z) (uSteps vSteps : Z) : list Z :=
  let verticesPerRow := (vSteps + 1)%Z in
  for_range 0 uSteps (λ i indices,
    Continue (for_range 0 vSteps (λ j indices,
      let idx0 := (i * verticesPerRow + j)%Z in
      let idx1 := (i * verticesPerRow + j + 1)%Z in
      let idx2 := ((i + 1) * verticesPerRow + j)%Z in
      let idx3 := ((i + 1) * verticesPerRow + j + 1)%Z in
      let '(idx1, idx3) :=
        if (j =? vSteps - 1)%Z
        then ((i * verticesPerRow)%Z, ((i + 1) * verticesPerRow)%Z)
        else (idx1, idx3) in
      Continue (indices ++ [idx0; idx2; idx1] ++ [idx1; idx2; idx3])) indices)) indices.

Definition generateMeshSLinearInterpolation (design : Shape3DDesign) : Completion Mesh :=
  let board := board design in
  let outlinePoints := sampledPoints (otl board) 400 in
  let '(minX, maxX) :=
    if (0 <? length outlinePoints)%nat
    then (Math_min (map pt_x outlinePoints), Math_max (map pt_x outlinePoints))
    else (0%float, board_length board) in
  let extension := 2%float in
  let minX := (minX - extension)%float in
  let maxX := (maxX + extension)%float in
  let actualLength := (maxX - minX)%float in
  b ← for_range_c 0 (uSteps + 1) (generateRow board minX actualLength) (mkBuffers [] [] []);
  let indices := generateTriangles [] uSteps vSteps in
  Normal {| geometry := BufferGeometry (vertices b) (normals b) (uvs b) indices;
            material := {| mat_color := 0xffffff;
                           mat_shininess := Some 30%float;
                           mat_side := Some DoubleSide |} |}.

Definition generateMeshSimpleInterpolation (_design : Shape3DDesign) : Mesh :=
  {| geometry := BoxGeometry 2 0.5 0.1;
     material := {| mat_color := 0xff9999; mat_shininess := None; mat_side := None |} |}.

(** [design] is [None] for a call with [null] or [undefined]. *)
Definition generateMesh (design : option Shape3DDesign) : Completion Mesh :=
  match design with
  | None => Throw (Error "Invalid design data: missing board information")
  | Some design =>
      if (0 <? length (couples (board design)))%nat
      then generateMeshSLinearInterpolation design
      else Normal (generateMeshSimpleInterpolation design)
  end.

End BoardCADMeshGenerator.

(** ** The decoder ([src/utils/s3dxParser.ts]) *)

(** The document tree the browser's XML parser produces: elements and
    text. Attributes, comments and processing instructions carry nothing
    the decoder reads. *)
#[local] Set Warnings "-register-all".
Inductive Node :=
  | TextNode (data : string)
  | ElementNode (tagName : string) (childNodes : list Node).

(** An element of a document: its tag, its children, and the tags of its
    ancestors, nearest first, which selectors with a descendant
    combinator and [closest] look at. *)
Record Element := mkElement {
  el_ancestors : list string;
  el_tagName : string;
  el_childNodes : list Node
}.

Module DOM.

(** The element [n] (if it is one) and the elements below it, in
    document order. *)
Fixpoint elementsOf (ancestors : list string) (n : Node) : list Element :=
  match n with
  | TextNode _ => []
  | ElementNode tag children =>
      mkElement ancestors tag children :: flat_map (elementsOf (tag :: ancestors)) children
  end.

Definition descendants (e : Element) : list Element :=
  flat_map (elementsOf (el_tagName e :: el_ancestors e)) (el_childNodes e).

(** [element.children]: the child elements. *)
Definition children (e : Element) : list Element :=
  omap (λ n, match n with
             | TextNode _ => None
             | ElementNode tag cs => Some (mkElement (el_tagName e :: el_ancestors e) tag cs)
             end) (el_childNodes e).

Fixpoint textOf (n : Node) : string :=
  match n with
  | TextNode data => data
  | ElementNode _ children => String.concat "" (map textOf children)
  end.

(** [element.textContent] *)
Definition textContent (e : Element) : string :=
  String.concat "" (map textOf (el_childNodes e)).

(** The two shapes of selector the decoder uses: a tag name, and a tag
    name below an ancestor (["Otl Bezier3d"]). Tag names are compared
    case-sensitively, as in an XML document. *)
Inductive Selector :=
  | ByTag (tag : string)
  | Within (ancestor tag : string).

Definition matches (sel : Selector) (e : Element) : bool :=
  match sel with
  | ByTag tag => String.eqb (el_tagName e) tag
  | Within ancestor tag =>
      String.eqb (el_tagName e) tag && existsb (String.eqb ancestor) (el_ancestors e)
  end.

Definition querySelector (sel : Selector) (e : Element) : option Element :=
  find (matches sel) (descendants e).

Definition querySelectorAll (sel : Selector) (e : Element) : list Element :=
  filter (λ d, matches sel d = true) (descendants e).

(** [document.querySelector]: the search includes the root element. *)
Definition documentQuerySelector (sel : Selector) (doc : Node) : option Element :=
  find (matches sel) (elementsOf [] doc).

(** Whether [element.closest(tag)] finds the element itself or an
    ancestor. *)
Definition closest (tag : string) (e : Element) : bool :=
  String.eqb (el_tagName e) tag || existsb (String.eqb tag) (el_ancestors e).

End DOM.

(** What the decoder takes from its platform: the XML parser of
    [DOMParser] (which answers a malformed text with an error document, it
    does not throw), the globals [parseFloat] and [parseInt] (radix 10),
    and [String.prototype.trim]. *)
Class Platform := {
  parseFromString : string → Node;
  global_parseFloat : string → float;
  global_parseInt : string → float;
  trim : string → string
}.

Module S3DXParser.
Import JS DOM.

Section Parser.
Context `{Platform}.

Definition parseFloat (s : string) : float :=
  let val := global_parseFloat s in
  if is_nan val then 0.0%float else val.

Definition parseInt (s : string) : float :=
  let val := global_parseInt s in
  if is_nan val then 0%float else val.

Definition getElementText (element : Element) : string :=
  trim (textContent element).

Definition getChildText (parent : Element) (tagName : string) : string :=
  match querySelector (ByTag tagName) parent with
  | Some child => getElementText child
  | None => ""
  end.

Definition parsePoint3D (element : Element) : Point3D :=
  {| pt_x := parseFloat (getChildText element "x");
     pt_y := parseFloat (getChildText element "y");
     pt_z := parseFloat (getChildText element "z");
     pt_u := parseFloat (getChildText element "u");
     pt_color := parseInt (getChildText element "color") |}.

Definition zeroPoint : Point3D := mkPoint3D 0 0 0 0 0.

Definition parsePolygon3D (element : Element) : Polygon3D :=
  let symmetryCenter :=
    match querySelector (Within "Symmetry_center" "Point3d") element with
    | Some symmetryCenterEl => parsePoint3D symmetryCenterEl
    | None => zeroPoint
    end in
  let points :=
    map parsePoint3D
      (filter (λ pointEl, closest "Symmetry_center" pointEl = false)
              (querySelectorAll (ByTag "Point3d") element)) in
  {| poly_nb_of_points := parseInt (getChildText element "Nb_of_points");
     poly_open := parseInt (getChildText element "Open");
     poly_symmetry := parseInt (getChildText element "Symmetry");
     poly_symmetry_center := symmetryCenter;
     poly_plan := parseInt (getChildText element "Plan");
     poly_points := points |}.

(** The decimal digits of a counter, as a template literal prints it. *)
Definition decimal (i : nat) : string := NilEmpty.string_of_uint (Nat.to_uint i).

(** The loop [while (true)] that probes [prefix_0], [prefix_1], ... and
    stops at the first missing one. *)
Fixpoint probeIndexed (fuel : nat) (element : Element) (prefix : string)
    (i : nat) (acc : list float) : Completion (list float) :=
  match fuel with
  | O => Diverge
  | S fuel =>
      match querySelector (ByTag (prefix +:+ decimal i)) element with
      | None => Normal acc
      | Some el => probeIndexed fuel element prefix (S i) (acc ++ [parseInt (getElementText el)])
      end
  end.

Definition emptyPolygon : Polygon3D :=
  {| poly_nb_of_points := 0; poly_open := 0; poly_symmetry := 0;
     poly_symmetry_center := zeroPoint; poly_plan := 0; poly_points := [] |}.

Definition polygonAt (sel : Selector) (element : Element) : Polygon3D :=
  match querySelector sel element with
  | Some el => parsePolygon3D el
  | None => emptyPolygon
  end.

Definition parseBezier3D (fuel : nat) (element : Element) : Completion Bezier3D :=
  controlTypePoints ← probeIndexed fuel element "Control_type_point_" 0 [];
  tangentTypePoints ← probeIndexed fuel element "Tangent_type_point_" 0 [];
  mret {| bez_name := getChildText element "Name";
          bez_degree := parseInt (getChildText element "Degree");
          bez_open := parseInt (getChildText element "Open");
          bez_symmetry := parseInt (getChildText element "Symmetry");
          bez_plan := parseInt (getChildText element "Plan");
          control_points := polygonAt (Within "Control_points" "Polygone3d") element;
          tangents_1 := polygonAt (Within "Tangents_1" "Polygone3d") element;
          tangents_2 := polygonAt (Within "Tangents_2" "Polygone3d") element;
          tangents_m := polygonAt (Within "Tangents_m" "Polygone3d") element;
          control_type_points := controlTypePoints;
          tangent_type_points := tangentTypePoints |}.

Definition emptyBezier : Bezier3D :=
  {| bez_name := ""; bez_degree := 0; bez_open := 0; bez_symmetry := 0; bez_plan := 0;
     control_points := emptyPolygon; tangents_1 := emptyPolygon;
     tangents_2 := emptyPolygon; tangents_m := emptyPolygon;
     control_type_points := []; tangent_type_points := [] |}.

Definition bezierAt (fuel : nat) (sel : Selector) (element : Element) : Completion Bezier3D :=
  match querySelector sel element with
  | Some el => parseBezier3D fuel el
  | None => mret emptyBezier
  end.

Definition parseCouple (fuel : nat) (element : Element) : Completion Couple :=
  bezier ← bezierAt fuel (ByTag "Bezier3d") element;
  mret {| dessus := parseInt (getChildText element "Dessus");
          dessous := parseInt (getChildText element "Dessous");
          displayed := parseInt (getChildText element "Displayed");
          couple_bezier := bezier |}.

Definition parseView (element : Element) : View :=
  {| view_version := parseFloat (getChildText element "Version");
     wh := parseFloat (getChildText element "Wh");
     ww := parseFloat (getChildText element "Ww");
     wox := parseFloat (getChildText element "Wox");
     woy := parseFloat (getChildText element "Woy");
     uh := parseFloat (getChildText element "Uh");
     uw := parseFloat (getChildText element "Uw");
     uxmin := parseFloat (getChildText element "Uxmin");
     uymin := parseFloat (getChildText element "Uymin");
     cxy := parseFloat (getChildText element "Cxy");
     mrgx := parseFloat (getChildText element "Mrgx");
     mrgy := parseFloat (getChildText element "Mrgy");
     police := getChildText element "Police";
     over_sample := parseInt (getChildText element "OverSample");
     grid := parseFloat (getChildText element "Grid") |}.

(** The default records. The source writes each of them out at every
    place it falls back to one; the copies are equal field for field. *)
Definition defaultPoint : Point3D := mkPoint3D 0 0 0 (-1) 0.

Definition defaultView : View :=
  {| view_version := 1.2; wh := 865.0; ww := 1896.0; wox := 0; woy := 0; uh := 0; uw := 0;
     uxmin := 0; uymin := 0; cxy := 0; mrgx := 0; mrgy := 0;
     police := "MS Sans Serif"; over_sample := 1; grid := 10.0 |}.

Definition pointAt (sel : Selector) (element : Element) (default : Point3D) : Point3D :=
  match querySelector sel element with
  | Some el => parsePoint3D el
  | None => default
  end.

Definition parseCamera (element : Element) : Camera :=
  {| cam_version := parseFloat (getChildText element "Version");
     alpha := parseFloat (getChildText element "Alpha");
     dim_obj := parseFloat (getChildText element "DimObj");
     crot := pointAt (Within "Crot" "Point3d") element defaultPoint;
     cvis := pointAt (Within "Cvis" "Point3d") element defaultPoint;
     ccam := pointAt (Within "Ccam" "Point3d") element (mkPoint3D 0 0 (-361.95) (-1) 0);
     oy := pointAt (Within "Oy" "Point3d") element (mkPoint3D 0 1 0 (-1) 0);
     ur := pointAt (Within "Ur" "Point3d") element (mkPoint3D 0 0 1 (-1) 0);
     cam_view := match querySelector (ByTag "View") element with
                 | Some el => parseView el
                 | None => defaultView
                 end |}.

Definition parseLighting (element : Element) : Lighting :=
  {| light_version := parseFloat (getChildText element "Version");
     ecl := pointAt (Within "Ecl" "Point3d") element
              (mkPoint3D 0 (-2082.87) (-2082.87) (-1) 0);
     light_color := parseInt (getChildText element "Color");
     color_spot := parseInt (getChildText element "ColorSpot");
     intensity := parseFloat (getChildText element "Intensity");
     intensity2 := parseFloat (getChildText element "Intensity2");
     intensity_ambient := parseFloat (getChildText element "IntensityAmbient");
     intensity_spec := parseFloat (getChildText element "IntensitySpec") |}.

Definition defaultLighting : Lighting :=
  {| light_version := 9.0;
     ecl := mkPoint3D 0 (-2082.87) (-2082.87) (-1) 0;
     light_color := 16777215; color_spot := 16777215;
     intensity := 0.8; intensity2 := 0.625;
     intensity_ambient := 0.475; intensity_spec := 1.0 |}.

Definition defaultCamera : Camera :=
  {| cam_version := 1.2; alpha := 0; dim_obj := 208.287;
     crot := defaultPoint; cvis := defaultPoint;
     ccam := mkPoint3D 0 0 (-361.95) (-1) 0;
     oy := mkPoint3D 0 1 0 (-1) 0;
     ur := mkPoint3D 0 0 1 (-1) 0;
     cam_view := defaultView |}.

Definition parseScene (element : Element) : Scene :=
  {| scene_version := parseFloat (getChildText element "Version");
     background_color := parseInt (getChildText element "Background_color");
     lighting := match querySelector (ByTag "Lighting") element with
                 | Some el => parseLighting el
                 | None => defaultLighting
                 end;
     camera := match querySelector (ByTag "Camera") element with
               | Some el => parseCamera el
               | None => defaultCamera
               end;
     reflexion_map := getChildText element "ReflexionMap";
     display_sky_box := parseInt (getChildText element "DisplaySkyBox") |}.

Definition defaultScene : Scene :=
  {| scene_version := 1.0; background_color := 0;
     lighting := defaultLighting; camera := defaultCamera;
     reflexion_map := ""; display_sky_box := 0 |}.

(** The loop over [element.children] that collects the cross-sections. *)
Fixpoint parseCouples (fuel : nat) (children : list Element) (couples : list Couple)
    : Completion (list Couple) :=
  match children with
  | [] => mret couples
  | child :: rest =>
      if String.prefix "Couples_" (el_tagName child)
      then couple ← parseCouple fuel child; parseCouples fuel rest (couples ++ [couple])
      else parseCouples fuel rest couples
  end.

Definition parseBoard (fuel : nat) (element : Element) : Completion Board :=
  couples ← parseCouples fuel (children element) [];
  otl ← bezierAt fuel (Within "Otl" "Bezier3d") element;
  str_bot ← bezierAt fuel (Within "StrBot" "Bezier3d") element;
  str_deck ← bezierAt fuel (Within "StrDeck" "Bezier3d") element;
  mret {| board_version := parseInt (getChildText element "Version");
          version_number := getChildText element "VersionNumber";
          board_name := getChildText element "Name";
          author := getChildText element "Author";
          comment := getChildText element "Comment";
          variation := getChildText element "Variation";
          category := getChildText element "Category";
          category_type := getChildText element "CategoryType";
          construction := getChildText element "Construction";
          rider_name := getChildText element "RiderName";
          rider_weight := parseFloat (getChildText element "RiderWeight");
          board_length := parseFloat (getChildText element "Length");
          length_dev := parseFloat (getChildText element "LengthDev");
          board_width := parseFloat (getChildText element "Width");
          board_thickness := parseFloat (getChildText element "Thickness");
          tail_rocker := parseFloat (getChildText element "Tail_rocker");
          nose_rocker := parseFloat (getChildText element "Nose_rocker");
          volume := (parseFloat (getChildText element "Volume") / 100.0)%float;
          surface_proj := parseFloat (getChildText element "SurfaceProj");
          volume_tail := (parseFloat (getChildText element "VolumeTail") / 100.0)%float;
          volume_nose := (parseFloat (getChildText element "VolumeNose") / 100.0)%float;
          surface_proj_tail := parseFloat (getChildText element "SurfaceProjTail");
          surface_proj_nose := parseFloat (getChildText element "SurfaceProjNose");
          otl := otl;
          str_bot := str_bot;
          str_deck := str_deck;
          number_of_slices := parseInt (getChildText element "Number_of_slices");
          couples := couples;
          board_color := parseInt (getChildText element "Color");
          color_bot := parseInt (getChildText element "ColorBot");
          color_rail := parseInt (getChildText element "ColorRail") |}.

(** The body of the [try] block. *)
Definition parseS3DX_body (fuel : nat) (xmlContent : string) : Completion Shape3DDesign :=
  let doc := parseFromString xmlContent in
  match documentQuerySelector (ByTag "Shape3d_design") doc with
  | None => Throw (Error "No Shape3d_design element found")
  | Some rootElement =>
      let boardElement := querySelector (ByTag "Board") rootElement in
      let sceneElement := querySelector (ByTag "Scene") rootElement in
      match boardElement with
      | None => Throw (Error "No Board element found")
      | Some boardElement =>
          board ← parseBoard fuel boardElement;
          let scene := match sceneElement with
                       | Some el => parseScene el
                       | None => defaultScene
                       end in
          mret {| board := board; scene := scene |}
      end
  end.

(** [try { ... } catch (error) { console.error(...); return null; }]:
    the result [None] is [null]. *)
Definition parseS3DX (fuel : nat) (xmlContent : string) : Completion (option Shape3DDesign) :=
  match parseS3DX_body fuel xmlContent with
  | Normal design => Normal (Some design)
  | Throw _ => Normal None
  | Diverge => Diverge
  end.

End Parser.
End S3DXParser.

(** ** The terms in which the properties are stated *)

Module Terms.
Import JS DOM BezierEvaluator BoardCADMeshGenerator S3DXParser.

(** *** Arrays and curves *)

(** An array of [n] slots whose first [length acc] slots hold [acc] and
    whose other slots are holes. *)
Definition filled {A} (n : nat) (acc : list A) : Array A :=
  map Some acc ++ replicate (n - length acc) None.

Definition controlPoints (b : Bezier3D) : list Point3D := poly_points (control_points b).
Definition tangentsIn (b : Bezier3D) : list Point3D := poly_points (tangents_1 b).
Definition tangentsOut (b : Bezier3D) : list Point3D := poly_points (tangents_2 b).

(** Both tangent polygons cover the control polygon: the guard of the
    per-segment cubic case. *)
Definition cubic_ready (b : Bezier3D) : Prop :=
  2 ≤ length (controlPoints b) ∧
  length (controlPoints b) ≤ length (tangentsIn b) ∧
  length (controlPoints b) ≤ length (tangentsOut b).


(** The share of the [n] samples that segment [seg] of [k] receives:
    [floor(n / k)], and what is left of [n] for the last segment. *)
Definition segment_budget (n k seg : Z) : Z :=
  if (seg =? k - 1)%Z then (n - (k - 1) * (n / k))%Z else (n / k)%Z.

(** The samples of segment [seg], at the parameters [localT]. *)
Definition segment_samples (ev : Z → float → Point3D) (n k seg : Z) : list Point3D :=
  map (λ j, ev seg (localT (segment_budget n k seg) j)) (seqZ 0 (segment_budget n k seg)).




(** A polyline whose [x] never decreases from one sample to the next. *)
Definition increasing_x (pts : list Point3D) : Prop :=
  ∀ i p q, pts !! i = Some p → pts !! S i = Some q → (pt_x p <=? pt_x q)%float = true.

(** *** The index buffer *)

(** The buffer offset of vertex [(i, j)] of a grid with [V + 1] vertices
    in a row. *)
Definition vertexOffset (V i j : Z) : Z := (i * (V + 1) + j)%Z.

(** The two triangles of the quad [(i, j)]: its right-hand column is
    [j + 1], and column [0] for the last quad of the row. *)
Definition quadTriangles (V i j : Z) : list Z :=
  let right := if (j =? V - 1)%Z then 0%Z else (j + 1)%Z in
  [vertexOffset V i j; vertexOffset V (i + 1) j; vertexOffset V i right;
   vertexOffset V i right; vertexOffset V (i + 1) j; vertexOffset V (i + 1) right].

(** *** Runs on fuel and the mandatory parts of a document *)

(** A computation on fuel settles on [a] when every fuel from some
    amount on yields the value [a]. *)
Definition settles_on {A} (f : nat → Completion A) (fuel0 : nat) (a : A) : Prop :=
  ∀ fuel, fuel0 ≤ fuel → f fuel = Normal a.

Definition settles {A} (f : nat → Completion A) : Prop :=
  ∃ fuel0 a, settles_on f fuel0 a.

Definition rootOf `{Platform} (xmlContent : string) : option Element :=
  documentQuerySelector (ByTag "Shape3d_design") (parseFromString xmlContent).

Definition boardOf `{Platform} (xmlContent : string) : option Element :=
  root ← rootOf xmlContent; querySelector (ByTag "Board") root.

(** *** Four sentences of the specification, as it words them *)

(** C1: a board without cross-sections makes mesh synthesis fail. *)
Definition zero_cross_sections_is_an_error : Prop :=
  ∀ design : Shape3DDesign,
    couples (board design) = [] → ∃ e, generateMesh (Some design) = Throw e.

(** C3: a document with a root container and no board subtree makes the
    decoder fail with an error. *)
Definition missing_board_is_an_error : Prop :=
  ∀ (P : Platform) (fuel : nat) (xmlContent : string) (root : Element),
    @rootOf P xmlContent = Some root →
    querySelector (ByTag "Board") root = None →
    ∃ e, @parseS3DX P fuel xmlContent = Throw e.


(** C5: any point with a negative [y] makes the profile count as already
    mirrored, and the profile is returned unchanged. *)
Definition mirror_unchanged_when_some_y_negative : Prop :=
  ∀ pts : list Point3D,
    (∃ p, p ∈ pts ∧ (pt_y p <? 0)%float = true) →
    mirrorCrossSectionPoints pts = pts.

(** *** Sample data *)

Definition origin : Point3D := mkPoint3D 0 0 0 0 0.

Definition polygon (pts : list Point3D) : Polygon3D :=
  mkPolygon3D (number_of_Z (Z.of_nat (length pts))) 0 0 origin 0 pts.

Definition curve (cp t1 t2 : list Point3D) : Bezier3D :=
  mkBezier3D "" 3 0 0 0 (polygon cp) (polygon t1) (polygon t2) (polygon []) [] [].



(** The chord from [(0, 0)] to [(1, 2)], the ends of colours [1] and [2]. *)
Definition unitChord : Bezier3D :=
  curve [mkPoint3D 0 0 0 0 1; mkPoint3D 1 2 0 0 2] [] [].

Definition shallowProfile : list Point3D :=
  [mkPoint3D 0 (-0.0005) 0 0 0; mkPoint3D 0 1 0 0 0].

Definition fullProfile : list Point3D :=
  [mkPoint3D 0 (-0.5) 0 0 0; mkPoint3D 0 1 0 0 0].

Definition risingLine : list Point3D :=
  [mkPoint3D 0 0 5 0 0; mkPoint3D 1 0 7 0 0; mkPoint3D 2 0 9 0 0].

(** A design with no curve and no cross-section at all: what the
    decoder makes of a document whose board is empty. *)
Definition emptyDesign : Shape3DDesign :=
  {| board :=
       {| board_version := 0; version_number := ""; board_name := ""; author := "";
          comment := ""; variation := ""; category := ""; category_type := "";
          construction := ""; rider_name := ""; rider_weight := 0;
          board_length := 0; length_dev := 0; board_width := 0; board_thickness := 0;
          tail_rocker := 0; nose_rocker := 0; volume := 0; surface_proj := 0;
          volume_tail := 0; volume_nose := 0; surface_proj_tail := 0;
          surface_proj_nose := 0;
          otl := emptyBezier; str_bot := emptyBezier; str_deck := emptyBezier;
          number_of_slices := 0; couples := [];
          board_color := 0; color_bot := 0; color_rail := 0 |};
     scene := defaultScene |}.

(** A board whose outline runs straight from [(0, 10)] to [(100, 10)]. *)
Definition straightOutline : Board :=
  let b := board emptyDesign in
  {| board_version := board_version b; version_number := version_number b;
     board_name := board_name b; author := author b; comment := comment b;
     variation := variation b; category := category b;
     category_type := category_type b; construction := construction b;
     rider_name := rider_name b; rider_weight := rider_weight b;
     board_length := 100; length_dev := length_dev b; board_width := 20;
     board_thickness := 5; tail_rocker := tail_rocker b; nose_rocker := nose_rocker b;
     volume := volume b; surface_proj := surface_proj b;
     volume_tail := volume_tail b; volume_nose := volume_nose b;
     surface_proj_tail := surface_proj_tail b; surface_proj_nose := surface_proj_nose b;
     otl := curve [mkPoint3D 0 10 0 0 0; mkPoint3D 100 10 0 0 0] [] [];
     str_bot := str_bot b; str_deck := str_deck b;
     number_of_slices := number_of_slices b; couples := couples b;
     board_color := board_color b; color_bot := color_bot b; color_rail := color_rail b |}.

(** A platform that knows three documents: one with a root container, a
    scene and no board, one with an empty board, one with a board of
    volume [1500]. It answers any other text with the parser's error
    document. *)
Definition boardlessText : string := "<Shape3d_design><Scene/></Shape3d_design>".

Definition boardlessDocument : Node :=
  ElementNode "Shape3d_design" [ElementNode "Scene" []].

Definition emptyBoardText : string := "<Shape3d_design><Board/></Shape3d_design>".

Definition emptyBoardDocument : Node :=
  ElementNode "Shape3d_design" [ElementNode "Board" []].

Definition smallBoardText : string :=
  "<Shape3d_design><Board><Volume>1500</Volume></Board></Shape3d_design>".

Definition smallBoardDocument : Node :=
  ElementNode "Shape3d_design"
    [ElementNode "Board" [ElementNode "Volume" [TextNode "1500"]]].

Definition samplePlatform : Platform :=
  {| parseFromString := λ text,
       if String.eqb text boardlessText then boardlessDocument
       else if String.eqb text emptyBoardText then emptyBoardDocument
       else if String.eqb text smallBoardText then smallBoardDocument
       else ElementNode "parsererror" [];
     global_parseFloat := λ s, if String.eqb s "1500" then 1500%float else nan;
     global_parseInt := λ s, if String.eqb s "1500" then 1500%float else nan;
     trim := λ s, s |}.

End Terms.

(** ** Loops that fill an array front to back *)

Module JSFacts.
Import JS Terms.

Lemma filled_nil {A} (n : nat) : filled n (@nil A) = new_Array n.
Proof. unfold filled, new_Array. simpl. by rewrite Nat.sub_0_r. Qed.

Lemma filled_full {A} (n : nat) (acc : list A) :
  length acc = n → filled n acc = map Some acc.
Proof.
  intros <-. unfold filled. rewrite Nat.sub_diag. simpl. apply app_nil_r.
Qed.

Lemma length_filled {A} (n : nat) (acc : list A) :
  length acc ≤ n → length (filled n acc) = n.
Proof.
  intros H. unfold filled.
  rewrite length_app, length_map, length_replicate. lia.
Qed.

Lemma array_set_filled {A} (n : nat) (acc : list A) (v : A) :
  length acc < n →
  array_set (filled n acc) (Z.of_nat (length acc)) v = filled n (acc ++ [v]).
Proof.
  intros Hlt. unfold array_set.
  rewrite length_filled by lia.
  destruct (Z.ltb_spec (Z.of_nat (length acc)) 0) as [Hneg|_]; [lia|].
  destruct (Z.ltb_spec (Z.of_nat (length acc)) (Z.of_nat n)) as [_|Hge]; [|lia].
  rewrite Nat2Z.id. unfold filled.
  rewrite insert_app_r_alt by (rewrite length_map; lia).
  rewrite length_map, Nat.sub_diag.
  destruct (n - length acc) as [|k] eqn:Hk; [lia|].
  rewrite length_app. simpl.
  replace (n - (length acc + 1)) with k by lia.
  rewrite map_app. simpl. by rewrite <- app_assoc.
Qed.

(** The guarded writing loop of a segment: every round writes at
    [pointIdx] and advances it, unless the array is already full. *)
Lemma for_each_fill {A B} (body : B → Array A * Z → Step (Array A * Z))
    (f : B → A) (n : nat) :
  (∀ j points pointIdx,
     body j (points, pointIdx) =
       if (Z.of_nat n <=? pointIdx)%Z then Break (points, pointIdx)
       else Continue (array_set points pointIdx (f j), (pointIdx + 1)%Z)) →
  ∀ (js : list B) (acc : list A),
    length acc + length js ≤ n →
    for_each body js (filled n acc, Z.of_nat (length acc)) =
      (filled n (acc ++ map f js), Z.of_nat (length (acc ++ map f js))).
Proof.
  intros Hbody js. induction js as [|j js IH]; intros acc Hlen; simpl.
  - by rewrite app_nil_r.
  - simpl in Hlen. rewrite Hbody.
    destruct (Z.leb_spec (Z.of_nat n) (Z.of_nat (length acc))) as [Hfull|_]; [lia|].
    rewrite array_set_filled by lia.
    replace (Z.of_nat (length acc) + 1)%Z with (Z.of_nat (length (acc ++ [f j])))
      by (rewrite length_app; simpl; lia).
    rewrite IH by (rewrite length_app; simpl; lia).
    by rewrite <- app_assoc.
Qed.

(** The unguarded loop that writes slot [i] at round [i]. *)
Lemma for_each_fill_at {A} (body : Z → Array A → Step (Array A))
    (f : Z → A) (n : nat) :
  (∀ i points, body i points = Continue (array_set points i (f i))) →
  ∀ (r : nat) (acc : list A),
    length acc + r ≤ n →
    for_each body (seqZ (Z.of_nat (length acc)) (Z.of_nat r)) (filled n acc) =
      filled n (acc ++ map f (seqZ (Z.of_nat (length acc)) (Z.of_nat r))).
Proof.
  intros Hbody r. induction r as [|r IH]; intros acc Hlen.
  - rewrite seqZ_nil by lia. simpl. by rewrite app_nil_r.
  - rewrite seqZ_cons by lia. simpl. rewrite Hbody.
    rewrite array_set_filled by lia.
    replace (Z.succ (Z.of_nat (length acc))) with (Z.of_nat (length (acc ++ [f (Z.of_nat (length acc))])))
      by (rewrite length_app; simpl; lia).
    replace (Z.pred (Z.of_nat (S r))) with (Z.of_nat r) by lia.
    rewrite IH by (rewrite length_app; simpl; lia).
    by rewrite <- app_assoc.
Qed.

End JSFacts.

(** ** The sampling loops of the curve evaluator *)

Module BezierEvaluatorFacts.
Import JS Terms JSFacts BezierEvaluator.

Lemma segment_budget_nonneg (n k seg : Z) :
  (0 ≤ n)%Z → (1 ≤ k)%Z → (0 ≤ segment_budget n k seg)%Z.
Proof.
  intros Hn Hk. unfold segment_budget.
  assert (0 ≤ n / k)%Z by (apply Z.div_pos; lia).
  assert (k * (n / k) ≤ n)%Z by (apply Z.mul_div_le; lia).
  destruct (seg =? k - 1)%Z; nia.
Qed.

Lemma length_segment_samples ev (n k seg : Z) :
  length (segment_samples ev n k seg) = Z.to_nat (segment_budget n k seg).
Proof. unfold segment_samples. by rewrite length_map, length_seqZ. Qed.

(** The outer loop, started at segment [s] with [r] segments to go and
    the samples [acc] of the segments before [s] in place. *)
Lemma sampleSegments_from ev (n : nat) (k : Z) :
  (1 ≤ k)%Z →
  ∀ (r : nat) (s : Z) (acc : list Point3D),
    (0 ≤ s)%Z → (s + Z.of_nat r = k)%Z →
    (0 < r → (Z.of_nat (length acc) = s * (Z.of_nat n / k))%Z) →
    length acc ≤ n →
    ∃ acc',
      for_each (λ seg '(points, pointIdx),
        let segmentPoints :=
          if (seg =? k - 1)%Z then (Z.of_nat n - pointIdx)%Z
          else (Z.of_nat n / k)%Z in
        Continue
          (for_range 0 segmentPoints (λ j '(points, pointIdx),
             if (Z.of_nat n <=? pointIdx)%Z then Break (points, pointIdx)
             else Continue (array_set points pointIdx (ev seg (localT segmentPoints j)),
                            (pointIdx + 1)%Z))
             (points, pointIdx)))
        (seqZ s (Z.of_nat r)) (filled n acc, Z.of_nat (length acc))
      = (filled n acc', Z.of_nat (length acc')) ∧
      acc' = acc ++ concat (map (segment_samples ev (Z.of_nat n) k) (seqZ s (Z.of_nat r))) ∧
      (0 < r → length acc' = n).
Proof.
  intros Hk r. induction r as [|r IH]; intros s acc Hs Hsr Hacc Hle.
  - exists acc. rewrite seqZ_nil by lia. simpl. rewrite app_nil_r.
    split; [done|]. split; [done|lia].
  - assert (Hpps : (0 ≤ Z.of_nat n / k)%Z) by (apply Z.div_pos; lia).
    assert (Hmul : (k * (Z.of_nat n / k) ≤ Z.of_nat n)%Z) by (apply Z.mul_div_le; lia).
    specialize (Hacc ltac:(lia)).
    rewrite seqZ_cons by lia.
    replace (Z.pred (Z.of_nat (S r))) with (Z.of_nat r) by lia.
    cbn [for_each map concat].
    set (m := if (s =? k - 1)%Z then (Z.of_nat n - Z.of_nat (length acc))%Z
              else (Z.of_nat n / k)%Z).
    assert (Hm : m = segment_budget (Z.of_nat n) k s).
    { unfold m, segment_budget. destruct (s =? k - 1)%Z eqn:E; [|done].
      apply Z.eqb_eq in E. rewrite Hacc, E. done. }
    assert (Hm0 : (0 ≤ m)%Z) by (rewrite Hm; apply segment_budget_nonneg; lia).
    assert (Hfit : length acc + Z.to_nat m ≤ n).
    { unfold m. destruct (Z.eqb_spec s (k - 1)); [lia|].
      assert ((s + 1) * (Z.of_nat n / k) ≤ k * (Z.of_nat n / k))%Z by nia. nia. }
    unfold for_range. rewrite Z.sub_0_r.
    rewrite (for_each_fill _ (λ j, ev s (localT m j)) n)
      by (done || rewrite length_seqZ; lia).
    set (acc1 := acc ++ map (λ j, ev s (localT m j)) (seqZ 0 m)).
    assert (Hlen1 : length acc1 = length acc + Z.to_nat m).
    { unfold acc1. by rewrite length_app, length_map, length_seqZ. }
    destruct (IH (Z.succ s) acc1) as (acc' & Hrun & Hacc' & Hfull); try lia.
    { intros Hr. rewrite Hlen1. unfold m.
      destruct (Z.eqb_spec s (k - 1)); [lia|]. rewrite Nat2Z.inj_add, Z2Nat.id by lia. lia. }
    exists acc'. split; [exact Hrun|]. split.
    + rewrite Hacc'. unfold acc1, segment_samples. rewrite <- Hm. by rewrite <- app_assoc.
    + intros _. destruct r as [|r'].
      * rewrite Hacc'. rewrite seqZ_nil by lia. simpl. rewrite app_nil_r, Hlen1.
        unfold m. destruct (Z.eqb_spec s (k - 1)); lia.
      * apply Hfull. lia.
Qed.

Lemma sampleSegments_spec ev (n : nat) (k : Z) :
  (1 ≤ k)%Z →
  let samples := concat (map (segment_samples ev (Z.of_nat n) k) (seqZ 0 k)) in
  fst (sampleSegments ev (Z.of_nat n) k (Z.of_nat n / k) (new_Array n, 0%Z)) = map Some samples
  ∧ length samples = n.
Proof.
  intros Hk samples. unfold sampleSegments, for_range. rewrite Z.sub_0_r.
  destruct (sampleSegments_from ev n k Hk (Z.to_nat k) 0%Z [])
    as (acc' & Hrun & Hacc' & Hfull); [lia | lia | simpl; lia | simpl; lia |].
  rewrite Z2Nat.id in Hrun, Hacc' by lia.
  rewrite filled_nil in Hrun. change (Z.of_nat (length [])) with 0%Z in Hrun.
  simpl in Hacc'. subst acc'. specialize (Hfull ltac:(lia)).
  split; [|exact Hfull].
  etrans; [exact (f_equal fst Hrun)|]. by apply filled_full.
Qed.

Lemma sampleWhole_spec (ev : float → Point3D) (n : nat) :
  sampleWhole ev (Z.of_nat n) (new_Array n) =
    map Some (map (λ i, ev (number_of_Z i / number_of_Z (Z.of_nat n - 1))%float)
                  (seqZ 0 (Z.of_nat n))).
Proof.
  unfold sampleWhole, for_range. rewrite Z.sub_0_r, <- filled_nil.
  etrans.
  { apply (for_each_fill_at _ (λ i, ev (number_of_Z i / number_of_Z (Z.of_nat n - 1))%float) n
             (λ _ _, eq_refl) n []). simpl; lia. }
  simpl. apply filled_full. by rewrite length_map, length_seqZ, Nat2Z.id.
Qed.

(** The first test of [generateBezierPoints]. *)
Lemma generateBezierPoints_few (b : Bezier3D) (n : nat) :
  length (controlPoints b) < 2 → generateBezierPoints b n = [].
Proof.
  intros Hlt. unfold generateBezierPoints, controlPoints in *.
  by destruct (Nat.ltb_spec (length (poly_points (control_points b))) 2); [|lia].
Qed.

End BezierEvaluatorFacts.

(** ** Order facts on binary64 floats *)

Module FloatFacts.
Import JS.

(** Comparisons are decided on the [spec_float] a float denotes; the
    steps below read every comparison of the context there and split on
    the shape of the operands. *)
Ltac to_spec :=
  repeat match goal with
  | H : context [(_ <=? _)%float] |- _ => rewrite FloatAxioms.leb_spec in H
  | H : context [(_ <? _)%float] |- _ => rewrite FloatAxioms.ltb_spec in H
  | H : context [(_ =? _)%float] |- _ => rewrite FloatAxioms.eqb_spec in H
  | |- context [(_ <=? _)%float] => rewrite FloatAxioms.leb_spec
  | |- context [(_ <? _)%float] => rewrite FloatAxioms.ltb_spec
  | |- context [(_ =? _)%float] => rewrite FloatAxioms.eqb_spec
  end;
  unfold SFleb, SFltb, SFeqb, SFcompare in *.

Ltac split_compare :=
  repeat match goal with
  | H : context [Z.compare ?a ?b] |- _ => destruct (Z.compare_spec a b)
  | |- context [Z.compare ?a ?b] => destruct (Z.compare_spec a b)
  | H : context [Pos.compare_cont Eq ?a ?b] |- _ =>
      change (Pos.compare_cont Eq a b) with (Pos.compare a b) in H;
      destruct (Pos.compare_spec a b)
  | |- context [Pos.compare_cont Eq ?a ?b] =>
      change (Pos.compare_cont Eq a b) with (Pos.compare a b);
      destruct (Pos.compare_spec a b)
  end.

Ltac by_shape :=
  to_spec;
  repeat match goal with
  | |- context [Prim2SF ?x] =>
      let s := fresh "s" in let m := fresh "m" in let e := fresh "e" in
      destruct (Prim2SF x) as [s|s| |s m e]
  | H : context [Prim2SF ?x] |- _ =>
      let s := fresh "s" in let m := fresh "m" in let e := fresh "e" in
      destruct (Prim2SF x) as [s|s| |s m e]
  end;
  repeat match goal with s : bool |- _ => destruct s end;
  simpl in *; try done;
  split_compare; simpl in *; try done; try lia.

Lemma leb_trans (a b c : float) :
  (a <=? b)%float = true → (b <=? c)%float = true → (a <=? c)%float = true.
Proof. intros Hab Hbc. by_shape. Qed.

Lemma ltb_leb_trans (a b c : float) :
  (a <? b)%float = true → (b <=? c)%float = true → (a <? c)%float = true.
Proof. intros Hab Hbc. by_shape. Qed.

Lemma leb_ltb_trans (a b c : float) :
  (a <=? b)%float = true → (b <? c)%float = true → (a <? c)%float = true.
Proof. intros Hab Hbc. by_shape. Qed.

Lemma ltb_not_geb (a b : float) :
  (a <? b)%float = true → geb a b = false.
Proof. unfold geb. intros Hab. by_shape. Qed.

Lemma ltb_not_leb (a b : float) :
  (a <? b)%float = true → (b <=? a)%float = false.
Proof. intros Hab. by_shape. Qed.

Lemma ltb_irrefl (a : float) : (a <? a)%float = false.
Proof. by_shape. Qed.

End FloatFacts.

(** ** Integers as floats: a positive counter converts to a positive float *)

Module ConversionFacts.
Import JS.





















End ConversionFacts.

(** ** Properties of the curve evaluator *)

Module BezierEvaluatorSpec.
Import JS Terms JSFacts FloatFacts BezierEvaluator BezierEvaluatorFacts.

Lemma nonempty_or_nil {A} (l : list A) : (if (0 <? length l)%nat then l else []) = l.
Proof. by destruct l. Qed.


(** Every array read of the cubic case is inside its array. *)
Lemma cubic_reads_in_range (b : Bezier3D) (seg : Z) :
  cubic_ready b →
  (0 ≤ seg < Z.of_nat (length (controlPoints b)) - 1)%Z →
  is_Some (controlPoints b !! Z.to_nat seg) ∧
  is_Some (controlPoints b !! Z.to_nat (seg + 1)) ∧
  is_Some (tangentsOut b !! Z.to_nat seg) ∧
  is_Some (tangentsIn b !! Z.to_nat (seg + 1)).
Proof.
  intros (H2 & H1 & Ht2) Hseg. repeat split; apply lookup_lt_is_Some; lia.
Qed.



(** C7. A curve with fewer than two control points has no sample, for
    every [n]. *)
Theorem generateBezierPoints_degenerate (b : Bezier3D) (n : nat) :
  length (controlPoints b) < 2 → generateBezierPoints b n = [].
Proof. apply generateBezierPoints_few. Qed.

Lemma generateBezierPoints_degenerate_witness :
  generateBezierPoints (curve [mkPoint3D 1 2 3 0 0] [] []) 50 = [].
Proof.
  apply (generateBezierPoints_degenerate (curve [mkPoint3D 1 2 3 0 0] [] []) 50).
  simpl. lia.
Defined.

End BezierEvaluatorSpec.

(** ** Mirroring and clamped interpolation *)

Module ProfileSpec.
Import JS Terms JSFacts FloatFacts BezierEvaluator.

Lemma hasNegative_spec (pts : list Point3D) :
  hasNegative pts = true ↔ ∃ p, p ∈ pts ∧ (pt_y p <? -0.001)%float = true.
Proof.
  unfold hasNegative. rewrite existsb_exists.
  split; intros (p & Hin & Hp); exists p; (split; [by apply list_elem_of_In | done]).
Qed.

Lemma mirrorCrossSectionPoints_full (pts : list Point3D) :
  hasNegative pts = true → mirrorCrossSectionPoints pts = pts.
Proof.
  intros Hneg. unfold mirrorCrossSectionPoints. rewrite Hneg.
  by destruct pts.
Qed.

(** C5 as the specification words it fails: a profile whose only
    negative [y] is [-0.0005] is above the tolerance [-0.001], and the
    operation appends the reflection of its second point. *)
Lemma mirrorCrossSectionPoints_shallow_negative :
  ¬ mirror_unchanged_when_some_y_negative.
Proof.
  intros H. specialize (H shallowProfile).
  assert (Hex : ∃ p, p ∈ shallowProfile ∧ (pt_y p <? 0)%float = true).
  { exists (mkPoint3D 0 (-0.0005) 0 0 0). split; [apply list_elem_of_here | reflexivity]. }
  apply H in Hex. vm_compute in Hex. discriminate Hex.
Qed.

(** C5, as the code has it. A profile with a point whose [y] is below [-0.001] is
    returned unchanged, so mirroring it twice is mirroring it once. *)
Theorem mirrorCrossSectionPoints_idempotent_on_full (pts : list Point3D) :
  (∃ p, p ∈ pts ∧ (pt_y p <? -0.001)%float = true) →
  mirrorCrossSectionPoints pts = pts ∧
  mirrorCrossSectionPoints (mirrorCrossSectionPoints pts) = mirrorCrossSectionPoints pts.
Proof.
  intros Hex. apply hasNegative_spec in Hex.
  rewrite !mirrorCrossSectionPoints_full by done. done.
Qed.

Lemma mirrorCrossSectionPoints_idempotent_on_full_witness :
  mirrorCrossSectionPoints fullProfile = fullProfile ∧
  mirrorCrossSectionPoints (mirrorCrossSectionPoints fullProfile) =
    mirrorCrossSectionPoints fullProfile.
Proof.
  apply (mirrorCrossSectionPoints_idempotent_on_full fullProfile).
  exists (mkPoint3D 0 (-0.5) 0 0 0). split; [apply list_elem_of_here | reflexivity].
Defined.

Lemma increasing_x_chain (pts : list Point3D) :
  increasing_x pts →
  ∀ d i p q, pts !! i = Some p → pts !! (i + S d) = Some q →
             (pt_x p <=? pt_x q)%float = true.
Proof.
  intros Hinc d. induction d as [|d IH]; intros i p q Hp Hq.
  - replace (i + 1) with (S i) in Hq by lia. eauto.
  - destruct (lookup_lt_is_Some_2 pts (i + S d)) as [r Hr].
    { apply lookup_lt_Some in Hq. lia. }
    apply leb_trans with (pt_x r); [eauto|].
    apply (Hinc (i + S d)); [done|].
    by replace (S (i + S d)) with (i + S (S d)) by lia.
Qed.

Lemma for_each_skip {A S} (body : A → S → Step S) (js : list A) (s : S) :
  (∀ j, j ∈ js → body j s = Continue s) → for_each body js s = s.
Proof.
  induction js as [|j js IH]; intros Hskip; simpl; [done|].
  rewrite Hskip by apply list_elem_of_here.
  apply IH. intros j' Hj'. apply Hskip. by apply list_elem_of_further.
Qed.

(** When no bracket [points[i].x <= x <= points[i+1].x] exists, the
    function answers from its last three lines. *)
Lemma interpolateZAtX_outside (points : list Point3D) (x : float) :
  points ≠ [] →
  (∀ i p q, points !! i = Some p → points !! S i = Some q →
            geb x (pt_x p) && (x <=? pt_x q)%float = false) →
  interpolateZAtX points x =
    if (x <? pt_x (points !!! 0%nat))%float then pt_z (points !!! 0%nat)
    else pt_z (points !!! (length points - 1)%nat).
Proof.
  intros Hne Hout. unfold interpolateZAtX.
  destruct points as [|p0 rest] eqn:E; [done|]. rewrite <- E in *.
  replace (length points =? 0)%nat with false by (subst; done).
  unfold for_range. rewrite for_each_skip; [done|].
  intros i Hi. apply elem_of_seqZ in Hi.
  destruct (lookup_lt_is_Some_2 points (Z.to_nat i)) as [p Hp]; [lia|].
  destruct (lookup_lt_is_Some_2 points (Z.to_nat (i + 1))) as [q Hq]; [lia|].
  rewrite (list_lookup_total_correct _ _ _ Hp), (list_lookup_total_correct _ _ _ Hq).
  rewrite (Hout (Z.to_nat i) p q); [done|done|].
  by replace (S (Z.to_nat i)) with (Z.to_nat (i + 1)) by lia.
Qed.

(** C6. On a polyline whose [x] increases, a query below the first
    sample's [x] yields the first sample's [z], a query above the last
    sample's [x] yields the last sample's [z], and the empty polyline
    yields [0.0] for every query. *)
Theorem interpolateZAtX_clamps (points : list Point3D) (x : float) :
  increasing_x points →
  (points = [] → interpolateZAtX points x = 0.0%float) ∧
  (∀ first, head points = Some first → (x <? pt_x first)%float = true →
            interpolateZAtX points x = pt_z first) ∧
  (∀ final, last points = Some final → (pt_x final <? x)%float = true →
            interpolateZAtX points x = pt_z final).
Proof.
  intros Hinc. split; [by intros ->|]. split.
  - intros first Hfirst Hbelow.
    assert (H0 : points !! 0 = Some first) by (by destruct points).
    rewrite interpolateZAtX_outside.
    + by rewrite (list_lookup_total_correct _ _ _ H0), Hbelow.
    + by destruct points.
    + intros i p q Hp _.
      assert (Hx : (x <? pt_x p)%float = true).
      { destruct i as [|i]; [by simplify_eq|].
        apply ltb_leb_trans with (pt_x first); [done|].
        by apply (increasing_x_chain points Hinc i 0 first p). }
      by rewrite (ltb_not_geb _ _ Hx).
  - intros final Hfinal Habove.
    rewrite last_lookup in Hfinal.
    replace (Nat.pred (length points)) with (length points - 1) in Hfinal by lia.
    assert (Hlen : 0 < length points).
    { apply lookup_lt_Some in Hfinal. lia. }
    assert (Hle : ∀ i p, points !! i = Some p → i ≠ length points - 1 →
                         (pt_x p <=? pt_x final)%float = true).
    { intros i p Hp Hi. apply lookup_lt_Some in Hp as Hlt.
      apply (increasing_x_chain points Hinc (length points - 1 - i - 1) i p final Hp).
      by replace (i + S (length points - 1 - i - 1)) with (length points - 1) by lia. }
    rewrite interpolateZAtX_outside.
    + rewrite (list_lookup_total_correct _ _ _ Hfinal).
      destruct (x <? pt_x (points !!! 0%nat))%float eqn:Hlow; [|done].
      destruct (lookup_lt_is_Some_2 points 0 Hlen) as [p0 Hp0].
      rewrite (list_lookup_total_correct _ _ _ Hp0) in Hlow.
      destruct (decide (0 = length points - 1)) as [Hone|Hmany].
      * rewrite <- Hone in Hfinal. simplify_eq.
        exfalso. revert Habove Hlow. clear. intros H1 H2. by_shape.
      * exfalso. pose proof (Hle 0 p0 Hp0 Hmany) as Hp0f.
        pose proof (leb_ltb_trans _ _ _ Hp0f Habove) as Hp0x.
        pose proof (ltb_not_leb _ _ Hlow) as Hn.
        revert Hp0x Hn. clear. intros H1 H2. by_shape.
    + intros ->. simpl in Hlen. lia.
    + intros i p q _ Hq.
      assert (Hx : (pt_x q <? x)%float = true).
      { destruct (decide (S i = length points - 1)) as [Hlast|Hmid].
        - rewrite Hlast in Hq. by simplify_eq.
        - apply leb_ltb_trans with (pt_x final); [|done]. by apply (Hle (S i)). }
      rewrite (ltb_not_leb _ _ Hx). apply andb_false_r.
Qed.

Lemma risingLine_increasing : increasing_x risingLine.
Proof.
  intros i p q Hp Hq.
  destruct i as [|[|[|i]]]; simpl in Hp, Hq; simplify_eq; reflexivity.
Defined.

Lemma interpolateZAtX_clamps_witness :
  interpolateZAtX risingLine (-1) = 5%float ∧ interpolateZAtX risingLine 3 = 9%float.
Proof.
  destruct (interpolateZAtX_clamps risingLine (-1) risingLine_increasing) as (_ & Hlow & _).
  destruct (interpolateZAtX_clamps risingLine 3 risingLine_increasing) as (_ & _ & Hhigh).
  split; [apply (Hlow (mkPoint3D 0 0 5 0 0)) | apply (Hhigh (mkPoint3D 2 0 9 0 0))];
    reflexivity.
Defined.

End ProfileSpec.

(** ** The linear case of the curve evaluator *)

Module LinearSpec.
Import JS Terms JSFacts FloatFacts ConversionFacts BezierEvaluator BezierEvaluatorFacts
  BezierEvaluatorSpec.








(** At [n = 1] the only parameter is [0 / 0]: the sample is NaN in every
    coordinate. *)
Example generateBezierPoints_linear_single :
  generateBezierPoints unitChord 1 = [Some (mkPoint3D nan nan nan nan 1)].
Proof. reflexivity. Qed.

(** The last sample keeps the colour of the first control point. *)
Example generateBezierPoints_linear_colour :
  generateBezierPoints unitChord 2 =
    [Some (mkPoint3D 0 0 0 0 1); Some (mkPoint3D 1 2 0 0 1)].
Proof. reflexivity. Qed.

End LinearSpec.

(** ** Properties of the mesh generator *)

Module MeshSpec.
Import JS Terms JSFacts FloatFacts BezierEvaluator BezierEvaluatorFacts BezierEvaluatorSpec
  BoardCADMeshGenerator.

Lemma omap_id_Some {A} (l : list A) : omap id (map Some l) = l.
Proof. induction l as [|a l IH]; [done|]. simpl. f_equal. exact IH. Qed.

(** Whatever the case taken, the array of samples has no hole, and it
    has [n] elements once there are two control points. *)
Lemma generateBezierPoints_shape (b : Bezier3D) (n : nat) :
  ∃ pts, generateBezierPoints b n = map Some pts ∧
         (2 ≤ length (controlPoints b) → length pts = n).
Proof.
  unfold generateBezierPoints, controlPoints. rewrite !nonempty_or_nil.
  destruct (Nat.ltb_spec (length (poly_points (control_points b))) 2) as [|Hlen];
    [exists []; split; [done|lia]|].
  repeat match goal with
  | |- context [if ?c then _ else _] => destruct c eqn:?
  end;
  try match goal with
  | |- context [sampleSegments ?ev _ ?k _ _] =>
      destruct (sampleSegments_spec ev n k ltac:(lia)) as [Hrun Hsize];
      eexists; split; [exact Hrun | intros _; exact Hsize]
  | |- context [sampleWhole ?ev _ _] =>
      eexists; split; [apply sampleWhole_spec|];
      intros _; by rewrite length_map, length_seqZ, Nat2Z.id
  end.
  apply Nat.eqb_neq in Heqb1, Heqb2. apply Nat.ltb_ge in Heqb3. lia.
Qed.

Lemma generateBezierPoints_dense (b : Bezier3D) (n : nat) :
  generateBezierPoints b n = map Some (sampledPoints b n).
Proof.
  unfold sampledPoints.
  destruct (generateBezierPoints_shape b n) as (pts & -> & _).
  by rewrite omap_id_Some.
Qed.

Lemma sampledPoints_length (b : Bezier3D) (n : nat) :
  2 ≤ length (controlPoints b) → length (sampledPoints b n) = n.
Proof.
  intros Hlen. unfold sampledPoints.
  destruct (generateBezierPoints_shape b n) as (pts & -> & Hsize).
  rewrite omap_id_Some. auto.
Qed.

Lemma sampledPoints_empty_iff (b : Bezier3D) (n : nat) :
  0 < n → sampledPoints b n = [] ↔ length (controlPoints b) < 2.
Proof.
  intros Hn. split.
  - intros Hempty. destruct (decide (length (controlPoints b) < 2)) as [|Hge]; [done|].
    pose proof (sampledPoints_length b n ltac:(lia)) as Hlen.
    rewrite Hempty in Hlen. simpl in Hlen. lia.
  - intros Hlen. unfold sampledPoints. by rewrite generateBezierPoints_few.
Qed.

Lemma sampledPoints_degenerate (b : Bezier3D) (n : nat) :
  length (controlPoints b) < 2 → sampledPoints b n = [].
Proof.
  intros Hlen. unfold sampledPoints.
  by rewrite generateBezierPoints_few.
Qed.

(** A loop that only appends. *)
Lemma for_each_append {A B} (body : A → list B → Step (list B)) (f : A → list B) :
  (∀ x s, body x s = Continue (s ++ f x)) →
  ∀ xs s, for_each body xs s = s ++ concat (map f xs).
Proof.
  intros Hbody xs. induction xs as [|x xs IH]; intros s; simpl.
  - by rewrite app_nil_r.
  - by rewrite Hbody, IH, app_assoc.
Qed.

Lemma length_quads (V i : Z) (js : list Z) :
  length (concat (map (quadTriangles V i) js)) = 6 * length js.
Proof. induction js as [|j js IH]; simpl; [done|]. rewrite IH. lia. Qed.

Lemma length_rows (V : Z) (rows : list Z) :
  length (concat (map (λ i, concat (map (quadTriangles V i) (seqZ 0 V))) rows)) =
    6 * Z.to_nat V * length rows.
Proof.
  induction rows as [|i rows IH]; simpl; [lia|].
  rewrite length_app, IH, length_quads, length_seqZ. lia.
Qed.

(** C8. The index buffer lists, row by row and quad by quad, two
    triangles per quad of the [U x V] grid, [2 * U * V] triangles in all;
    vertex [(i, j)] is at offset [i * (V + 1) + j], and the quad of the
    last column [j = V - 1] takes its right-hand vertices from column [0]
    of the same row and of the next row. *)
Theorem generateTriangles_grid (indices : list Z) (U V : nat) :
  generateTriangles indices (Z.of_nat U) (Z.of_nat V) =
    indices ++
    concat (map (λ i, concat (map (quadTriangles (Z.of_nat V) i) (seqZ 0 (Z.of_nat V))))
                (seqZ 0 (Z.of_nat U))) ∧
  length (generateTriangles [] (Z.of_nat U) (Z.of_nat V)) = 3 * (2 * U * V) ∧
  (∀ i, quadTriangles (Z.of_nat V) i (Z.of_nat V - 1) =
        [(i * (Z.of_nat V + 1) + (Z.of_nat V - 1))%Z;
         ((i + 1) * (Z.of_nat V + 1) + (Z.of_nat V - 1))%Z;
         (i * (Z.of_nat V + 1) + 0)%Z;
         (i * (Z.of_nat V + 1) + 0)%Z;
         ((i + 1) * (Z.of_nat V + 1) + (Z.of_nat V - 1))%Z;
         ((i + 1) * (Z.of_nat V + 1) + 0)%Z]).
Proof.
  assert (Hrun : ∀ indices,
    generateTriangles indices (Z.of_nat U) (Z.of_nat V) =
      indices ++
      concat (map (λ i, concat (map (quadTriangles (Z.of_nat V) i) (seqZ 0 (Z.of_nat V))))
                  (seqZ 0 (Z.of_nat U)))).
  { intros idx. unfold generateTriangles, for_range. rewrite !Z.sub_0_r.
    apply (for_each_append _
             (λ i, concat (map (quadTriangles (Z.of_nat V) i) (seqZ 0 (Z.of_nat V))))).
    intros i s. f_equal.
    apply (for_each_append _ (quadTriangles (Z.of_nat V) i)).
    intros j s'. unfold quadTriangles, vertexOffset.
    destruct (j =? Z.of_nat V - 1)%Z; cbn [app];
      by rewrite ?Z.add_0_r, <- ?Z.add_assoc. }
  split; [apply Hrun|]. split.
  - rewrite Hrun. simpl. rewrite length_rows, length_seqZ, !Nat2Z.id. lia.
  - intros i. unfold quadTriangles, vertexOffset. by rewrite Z.eqb_refl.
Qed.

(** Every index of the buffer names a vertex of the grid of
    [(U + 1) x (V + 1)] vertices. *)
Lemma quadTriangles_in_grid (U V : nat) (i j : Z) :
  (0 ≤ i < Z.of_nat U)%Z → (0 ≤ j < Z.of_nat V)%Z →
  Forall (λ k, 0 ≤ k < (Z.of_nat U + 1) * (Z.of_nat V + 1))%Z
         (quadTriangles (Z.of_nat V) i j).
Proof.
  intros Hi Hj. unfold quadTriangles, vertexOffset.
  destruct (j =? Z.of_nat V - 1)%Z; repeat constructor; nia.
Qed.

Lemma generateTriangles_in_grid (U V : nat) :
  Forall (λ k, 0 ≤ k < (Z.of_nat U + 1) * (Z.of_nat V + 1))%Z
         (generateTriangles [] (Z.of_nat U) (Z.of_nat V)).
Proof.
  unfold generateTriangles, for_range. rewrite !Z.sub_0_r.
  rewrite (for_each_append _
             (λ i, concat (map (quadTriangles (Z.of_nat V) i) (seqZ 0 (Z.of_nat V))))).
  - simpl. apply Forall_concat, Forall_map, Forall_forall. intros i Hi.
    apply elem_of_seqZ in Hi.
    apply Forall_concat, Forall_map, Forall_forall. intros j Hj.
    apply elem_of_seqZ in Hj. apply quadTriangles_in_grid; lia.
  - intros i s. f_equal.
    apply (for_each_append _ (quadTriangles (Z.of_nat V) i)).
    intros j s'. unfold quadTriangles, vertexOffset.
    destruct (j =? Z.of_nat V - 1)%Z; cbn [app];
      by rewrite ?Z.add_0_r, <- ?Z.add_assoc.
Qed.

(** A loop whose body may throw and, when it does not, appends a fixed
    number of entries to each buffer. *)
Lemma for_each_c_grows {A} (body : A → Buffers → Completion Buffers) (dv dn du : nat) :
  (∀ x b b', body x b = Normal b' →
     length (vertices b') = length (vertices b) + dv ∧
     length (normals b') = length (normals b) + dn ∧
     length (uvs b') = length (uvs b) + du) →
  ∀ xs b b', for_each_c body xs b = Normal b' →
     length (vertices b') = length (vertices b) + dv * length xs ∧
     length (normals b') = length (normals b) + dn * length xs ∧
     length (uvs b') = length (uvs b) + du * length xs.
Proof.
  intros Hbody xs. induction xs as [|x xs IH]; intros b b' Hrun; simpl in Hrun.
  - simplify_eq. simpl. lia.
  - destruct (body x b) as [b1| |] eqn:Hx; simpl in Hrun; try discriminate Hrun.
    destruct (Hbody _ _ _ Hx) as (Hv & Hn & Hu).
    destruct (IH _ _ Hrun) as (Hv' & Hn' & Hu'). simpl. lia.
Qed.

Lemma for_each_grows {A} (body : A → Buffers → Step Buffers) (dv dn du : nat) :
  (∀ x b, ∃ b', body x b = Continue b' ∧
     length (vertices b') = length (vertices b) + dv ∧
     length (normals b') = length (normals b) + dn ∧
     length (uvs b') = length (uvs b) + du) →
  ∀ xs b,
     length (vertices (for_each body xs b)) = length (vertices b) + dv * length xs ∧
     length (normals (for_each body xs b)) = length (normals b) + dn * length xs ∧
     length (uvs (for_each body xs b)) = length (uvs b) + du * length xs.
Proof.
  intros Hbody xs. induction xs as [|x xs IH]; intros b; simpl; [lia|].
  destruct (Hbody x b) as (b1 & -> & Hv & Hn & Hu).
  destruct (IH b1) as (Hv' & Hn' & Hu'). lia.
Qed.

Lemma pushVertex_grows (px py pz u v : float) (b : Buffers) :
  length (vertices (pushVertex px py pz u v b)) = length (vertices b) + 3 ∧
  length (normals (pushVertex px py pz u v b)) = length (normals b) + 3 ∧
  length (uvs (pushVertex px py pz u v b)) = length (uvs b) + 2.
Proof. unfold pushVertex. simpl. rewrite !length_app. simpl. lia. Qed.

(** A row that completes has written its [vSteps + 1 = 33] vertices,
    whichever branch it took. *)
Lemma generateRow_grows (board : Board) (minX actualLength : float) (i : Z) (b b' : Buffers) :
  generateRow board minX actualLength i b = Normal b' →
  length (vertices b') = length (vertices b) + 3 * 33 ∧
  length (normals b') = length (normals b) + 3 * 33 ∧
  length (uvs b') = length (uvs b) + 2 * 33.
Proof.
  unfold generateRow.
  destruct (getWidthAtX board (rowStation minX actualLength i) <=? 0.1)%float.
  - intros Hrow. simplify_eq. unfold collapsedRow, for_range.
    pose proof (for_each_grows
      (λ j b, Continue
         (pushVertex (rowStation minX actualLength i) 0
            (getBottomAtX board (rowStation minX actualLength i) +
             getThicknessAtX board (rowStation minX actualLength i) * 0.5)%float
            (rowParameter i) (number_of_Z j / number_of_Z vSteps)%float b))
      3 3 2) as Hloop.
    specialize (Hloop (λ j b0, ex_intro _ _ (conj eq_refl (pushVertex_grows _ _ _ _ _ b0)))
                  (seqZ 0 (vSteps + 1 - 0)) b).
    rewrite length_seqZ in Hloop. change (Z.to_nat (vSteps + 1 - 0)) with 33 in Hloop.
    exact Hloop.
  - unfold profiledRow.
    destruct (getInterpolatedCrossSection board (rowStation minX actualLength i))
      as [crossSection| |]; simpl; try discriminate.
    unfold for_range_c. intros Hrun.
    eapply (for_each_c_grows _ 3 3 2) in Hrun.
    + rewrite length_seqZ in Hrun. change (Z.to_nat (vSteps + 1 - 0)) with 33 in Hrun. lia.
    + intros j b0 b1. simpl.
      destruct (getPointOnCrossSection _ _ _) as [csPoint|]; simpl; try discriminate.
      intros Hb1. simplify_eq. apply pushVertex_grows.
Qed.

(** The mesh of the S-Linear path: [41 x 33] vertices, each with a
    normal and a texture coordinate, and the index buffer of the grid of
    [40 x 32] quads. *)
Lemma generateMeshSLinearInterpolation_buffers (design : Shape3DDesign) (mesh : Mesh) :
  generateMeshSLinearInterpolation design = Normal mesh →
  ∃ position normal uv,
    geometry mesh = BufferGeometry position normal uv (generateTriangles [] 40 32) ∧
    length position = 3 * (41 * 33) ∧
    length normal = 3 * (41 * 33) ∧
    length uv = 2 * (41 * 33).
Proof.
  unfold generateMeshSLinearInterpolation.
  destruct (if 0 <? length _ then _ else _) as [minX maxX].
  destruct (for_range_c _ _ _ _) as [b| |] eqn:Hrows; simpl; intros Hmesh; simplify_eq.
  simpl. exists (vertices b), (normals b), (uvs b). split; [done|].
  unfold for_range_c in Hrows.
  eapply (for_each_c_grows _ (3 * 33) (3 * 33) (2 * 33)) in Hrows;
    [|intros i b0 b1; apply generateRow_grows].
  rewrite length_seqZ in Hrows. change (Z.to_nat (uSteps + 1 - 0)) with 41 in Hrows.
  simpl in Hrows. lia.
Qed.

(** C9. When the outline has fewer than two control points, so that its
    sampled polyline is empty, [getWidthAtX] is [20] at every [x], and
    every row of the mesh takes the cross-section branch, not the
    collapse to a centre-line point. *)
Theorem getWidthAtX_without_outline (board : Board) (x : float) :
  length (controlPoints (otl board)) < 2 →
  sampledPoints (otl board) 200 = [] ∧
  getWidthAtX board x = 20%float ∧
  (∀ minX actualLength i b,
     generateRow board minX actualLength i b =
       profiledRow board (rowStation minX actualLength i) (rowParameter i) b).
Proof.
  intros Hlen.
  assert (Hempty : sampledPoints (otl board) 200 = []) by by apply sampledPoints_degenerate.
  assert (Hwidth : ∀ x', getWidthAtX board x' = 20%float).
  { intros x'. unfold getWidthAtX. by rewrite Hempty. }
  split; [done|]. split; [done|].
  intros minX actualLength i b. unfold generateRow. by rewrite Hwidth.
Qed.

Lemma getWidthAtX_without_outline_witness :
  getWidthAtX (board emptyDesign) 150 = 20%float.
Proof.
  apply (getWidthAtX_without_outline (board emptyDesign) 150). simpl. lia.
Defined.

(** Beyond the ends of an outline that has samples the width is [0],
    and the row collapses. *)
Example getWidthAtX_beyond_outline :
  getWidthAtX straightOutline 500 = 0%float ∧
  getWidthAtX straightOutline 50 = 20%float ∧
  ∀ b, generateRow straightOutline (-2) 104 0 b =
         Normal (collapsedRow straightOutline (-2) 0 b).
Proof. split; [|split]; [vm_compute; reflexivity..|]. intros b. reflexivity. Qed.

(** C1 as the specification words it fails: the design decoded from a
    document with an empty board has no cross-section and is answered
    with a mesh, the placeholder box. *)
Lemma generateMesh_returns_placeholder : ¬ zero_cross_sections_is_an_error.
Proof.
  intros Hclaim. destruct (Hclaim emptyDesign eq_refl) as [e He].
  vm_compute in He. discriminate He.
Qed.

(** C1, as the code has it. For a design whose board has no cross-section,
    [generateMesh] throws nothing: it returns the placeholder of
    [generateMeshSimpleInterpolation], a box of [2 x 0.5 x 0.1] with a
    Phong material of colour [0xff9999]. *)
Theorem generateMesh_without_couples (design : Shape3DDesign) :
  couples (board design) = [] →
  generateMesh (Some design) =
    Normal {| geometry := BoxGeometry 2 0.5 0.1;
              material := {| mat_color := 0xff9999; mat_shininess := None;
                             mat_side := None |} |}.
Proof. intros Hnone. unfold generateMesh. by rewrite Hnone. Qed.

Lemma generateMesh_without_couples_witness :
  generateMesh (Some emptyDesign) =
    Normal {| geometry := BoxGeometry 2 0.5 0.1;
              material := {| mat_color := 0xff9999; mat_shininess := None;
                             mat_side := None |} |}.
Proof. apply (generateMesh_without_couples emptyDesign). reflexivity. Defined.

End MeshSpec.

(** ** Properties of the decoder *)

Module S3DXParserSpec.
Import JS DOM S3DXParser Terms.

Lemma settles_on_mono {A} (f : nat → Completion A) (fuel0 fuel1 : nat) (a : A) :
  fuel0 ≤ fuel1 → settles_on f fuel0 a → settles_on f fuel1 a.
Proof. intros Hle Hf fuel Hfuel. apply Hf. lia. Qed.

Lemma settles_const {A} (a : A) : settles (λ _, Normal a).
Proof. by exists 0, a. Qed.

Lemma settles_bind {A B} (f : nat → Completion A) (g : nat → A → Completion B) :
  settles f → (∀ a, settles (λ fuel, g fuel a)) →
  settles (λ fuel, a ← f fuel; g fuel a).
Proof.
  intros (n1 & a & Hf) Hg. destruct (Hg a) as (n2 & b & Hb).
  exists (n1 `max` n2), b. intros fuel Hfuel.
  rewrite Hf by lia. simpl. apply Hb. lia.
Qed.

Lemma decimal_inj (i j : nat) : decimal i = decimal j → i = j.
Proof.
  unfold decimal. intros Heq.
  assert (Hu : Nat.to_uint i = Nat.to_uint j).
  { apply (f_equal NilEmpty.uint_of_string) in Heq.
    rewrite !NilEmpty.usu in Heq. by injection Heq. }
  apply (f_equal Nat.of_uint) in Hu. by rewrite !Unsigned.of_to in Hu.
Qed.

Section Termination.
Context `{Platform}.

Lemma querySelector_found (tag : string) (element found : Element) :
  querySelector (ByTag tag) element = Some found →
  tag ∈ map el_tagName (descendants element).
Proof.
  unfold querySelector. intros Hfind. apply find_some in Hfind as [Hin Hmatch].
  simpl in Hmatch. apply String.eqb_eq in Hmatch. subst tag.
  apply list_elem_of_In, in_map, Hin.
Qed.

(** The probing loop stops within as many rounds as the element has
    descendants: the tags it has found so far are pairwise distinct. *)
Lemma probeIndexed_settles (element : Element) (prefix : string) :
  ∀ fuel i acc,
    (∀ j, j < i → prefix +:+ decimal j ∈ map el_tagName (descendants element)) →
    length (descendants element) < i + fuel →
    ∃ r, probeIndexed fuel element prefix i acc = Normal r.
Proof.
  intros fuel. induction fuel as [|fuel IH]; intros i acc Hfound Hfuel.
  - exfalso.
    assert (Hle : length (map (λ j, prefix +:+ decimal j) (seq 0 i)) ≤
                  length (map el_tagName (descendants element))).
    { apply submseteq_length, NoDup_submseteq.
      - apply NoDup_fmap_2; [|apply NoDup_seq].
        intros j1 j2 Heq. apply decimal_inj. by apply (inj (String.app prefix)) in Heq.
      - intros tag Htag. apply list_elem_of_fmap in Htag as (j & -> & Hj).
        apply Hfound. apply elem_of_seq in Hj. lia. }
    rewrite !length_map, length_seq in Hle. lia.
  - simpl. destruct (querySelector (ByTag (prefix +:+ decimal i)) element) as [el|] eqn:Hq;
      [|by eexists].
    apply IH; [|lia].
    intros j Hj. destruct (decide (j = i)) as [->|Hne].
    + by eapply querySelector_found.
    + apply Hfound. lia.
Qed.

Lemma probeIndexed_fuel (element : Element) (prefix : string) :
  ∀ fuel fuel' i acc r,
    probeIndexed fuel element prefix i acc = Normal r → fuel ≤ fuel' →
    probeIndexed fuel' element prefix i acc = Normal r.
Proof.
  intros fuel. induction fuel as [|fuel IH]; intros fuel' i acc r Hrun Hle; [done|].
  destruct fuel' as [|fuel']; [lia|]. simpl in *.
  destruct (querySelector (ByTag (prefix +:+ decimal i)) element); [|done].
  eapply IH; [done|lia].
Qed.

Lemma probeIndexed_total (element : Element) (prefix : string) :
  settles (λ fuel, probeIndexed fuel element prefix 0 []).
Proof.
  destruct (probeIndexed_settles element prefix (S (length (descendants element))) 0 [])
    as [r Hr]; [intros j Hj; lia | lia |].
  exists (S (length (descendants element))), r.
  intros fuel Hfuel. by eapply probeIndexed_fuel.
Qed.

Lemma parseBezier3D_total (element : Element) :
  settles (λ fuel, parseBezier3D fuel element).
Proof.
  unfold parseBezier3D.
  apply settles_bind; [apply probeIndexed_total|]. intros controlTypePoints.
  apply settles_bind; [apply probeIndexed_total|]. intros tangentTypePoints.
  apply settles_const.
Qed.

Lemma bezierAt_total (sel : Selector) (element : Element) :
  settles (λ fuel, bezierAt fuel sel element).
Proof.
  unfold bezierAt. destruct (querySelector sel element);
    [apply parseBezier3D_total | apply settles_const].
Qed.

Lemma parseCouple_total (element : Element) :
  settles (λ fuel, parseCouple fuel element).
Proof.
  unfold parseCouple. apply settles_bind; [apply bezierAt_total|].
  intros bezier. apply settles_const.
Qed.

Lemma parseCouples_total (children : list Element) :
  ∀ couples, settles (λ fuel, parseCouples fuel children couples).
Proof.
  induction children as [|child rest IH]; intros couples; simpl.
  - apply settles_const.
  - destruct (String.prefix "Couples_" (el_tagName child)); [|apply IH].
    apply settles_bind; [apply parseCouple_total|]. intros couple. apply IH.
Qed.

Lemma parseBoard_total (element : Element) :
  settles (λ fuel, parseBoard fuel element).
Proof.
  unfold parseBoard.
  apply settles_bind; [apply parseCouples_total|]. intros couples.
  apply settles_bind; [apply bezierAt_total|]. intros otl.
  apply settles_bind; [apply bezierAt_total|]. intros str_bot.
  apply settles_bind; [apply bezierAt_total|]. intros str_deck.
  apply settles_const.
Qed.

Lemma parseS3DX_body_without_root (fuel : nat) (xmlContent : string) :
  rootOf xmlContent = None →
  parseS3DX_body fuel xmlContent = Throw (Error "No Shape3d_design element found").
Proof. unfold rootOf, parseS3DX_body. by intros ->. Qed.

Lemma parseS3DX_body_without_board (fuel : nat) (xmlContent : string) (root : Element) :
  rootOf xmlContent = Some root → querySelector (ByTag "Board") root = None →
  parseS3DX_body fuel xmlContent = Throw (Error "No Board element found").
Proof. unfold rootOf, parseS3DX_body. by intros -> ->. Qed.

Lemma parseS3DX_body_with_board (xmlContent : string) (boardElement : Element) :
  boardOf xmlContent = Some boardElement →
  settles (λ fuel, parseS3DX_body fuel xmlContent).
Proof.
  unfold boardOf, rootOf, parseS3DX_body.
  destruct (documentQuerySelector (ByTag "Shape3d_design") (parseFromString xmlContent))
    as [root|]; [|done].
  simpl. intros ->.
  apply settles_bind; [apply parseBoard_total|]. intros board. apply settles_const.
Qed.

(** C10. [parseS3DX] returns on every text and never throws: with
    enough fuel for its probing loops it yields a design or [null], and
    [null] exactly when the root container or the board subtree is
    missing. *)
Theorem parseS3DX_total (xmlContent : string) :
  ∃ (fuel0 : nat) (result : option Shape3DDesign),
    (∀ fuel, fuel0 ≤ fuel → parseS3DX fuel xmlContent = Normal result) ∧
    (result = None ↔
       rootOf xmlContent = None ∨
       ∃ root, rootOf xmlContent = Some root ∧ querySelector (ByTag "Board") root = None) ∧
    (∀ fuel e, parseS3DX fuel xmlContent ≠ Throw e).
Proof.
  assert (Hquiet : ∀ fuel e, parseS3DX fuel xmlContent ≠ Throw e).
  { intros fuel e. unfold parseS3DX. by destruct (parseS3DX_body fuel xmlContent). }
  destruct (boardOf xmlContent) as [boardElement|] eqn:Hboard.
  - destruct (parseS3DX_body_with_board xmlContent boardElement Hboard) as (fuel0 & design & Hrun).
    exists fuel0, (Some design). split; [|split; [|done]].
    + intros fuel Hfuel. unfold parseS3DX. by rewrite Hrun.
    + split; [done|]. unfold boardOf in Hboard.
      intros [Hroot|(root & Hroot & Hnone)]; rewrite Hroot in Hboard; simpl in Hboard;
        congruence.
  - unfold boardOf in Hboard.
    exists 0, None. split; [|split; [|done]].
    + intros fuel _. unfold parseS3DX.
      destruct (rootOf xmlContent) as [root|] eqn:Hroot; simpl in Hboard.
      * by rewrite (parseS3DX_body_without_board fuel xmlContent root).
      * by rewrite parseS3DX_body_without_root.
    + split; [|done]. intros _.
      destruct (rootOf xmlContent) as [root|]; simpl in Hboard; eauto.
Qed.

(** C3, as the code has it. When the root container is present and it has no
    board subtree, the [try] block throws a plain [Error], which
    [parseS3DX] catches: the call returns [null] and no design. *)
Theorem parseS3DX_without_board (fuel : nat) (xmlContent : string) (root : Element) :
  rootOf xmlContent = Some root →
  querySelector (ByTag "Board") root = None →
  parseS3DX_body fuel xmlContent = Throw (Error "No Board element found") ∧
  parseS3DX fuel xmlContent = Normal None.
Proof.
  intros Hroot Hboard. unfold parseS3DX.
  by rewrite (parseS3DX_body_without_board fuel xmlContent root).
Qed.

End Termination.

Lemma parseS3DX_without_board_witness :
  @parseS3DX samplePlatform 1 boardlessText = Normal None.
Proof.
  apply (@parseS3DX_without_board samplePlatform 1 boardlessText
           (mkElement [] "Shape3d_design" [ElementNode "Scene" []])); reflexivity.
Defined.

(** The document with an empty board decodes to [emptyDesign]. *)
Example parseS3DX_empty_board :
  @parseS3DX samplePlatform 0 emptyBoardText = Normal (Some emptyDesign).
Proof. reflexivity. Qed.

(** A document with a board and no scene decodes to a design with the
    default scene; the raw volume [1500] becomes [15]. *)
Example parseS3DX_small_board :
  ∃ design, @parseS3DX samplePlatform 1 smallBoardText = Normal (Some design) ∧
            volume (board design) = 15%float ∧
            couples (board design) = [] ∧
            scene design = @defaultScene ∧
            pt_z (ccam (camera (scene design))) = (-361.95)%float ∧
            intensity (lighting (scene design)) = 0.8%float.
Proof. eexists. split; [vm_compute; reflexivity|]. repeat split. Qed.

(** C3 as the specification words it fails: on the document with a
    root container, a scene and no board the call returns [null]. *)
Lemma parseS3DX_returns_null_not_error : ¬ missing_board_is_an_error.
Proof.
  intros Hclaim.
  destruct (Hclaim samplePlatform 1 boardlessText
              (mkElement [] "Shape3d_design" [ElementNode "Scene" []]) eq_refl eq_refl)
    as [e He].
  vm_compute in He. discriminate He.
Qed.

End S3DXParserSpec.
